(** * ai_interview.py: a shallow embedding and its checked properties

    The program is a linear pipeline: load a question sheet, ask for the
    candidate's name, and for every row capture audio, transcribe it,
    score the transcript with a remote model, record the score; at the
    end store the rows and display the aggregate.

    Everything the program receives from outside (the sheet, the text
    field, the microphone, the two remote services) is an explicit
    argument of the embedded functions; everything it shows, prints or
    stores is an event of a trace.  Exceptions are values. *)

From Stdlib Require Import ZArith NArith List Bool String Ascii Lia.
Import ListNotations.

Local Open Scope Z_scope.

(* ================================================================== *)
(** * Python text *)
(* ================================================================== *)

(** A Python [str] is a sequence of Unicode code points. *)
Definition pystr := list N.

(** The code points of an ASCII literal. *)
Definition lit (s : string) : pystr := map N_of_ascii (list_ascii_of_string s).

Definition pystr_eqb (a b : pystr) : bool :=
  if list_eq_dec N.eq_dec a b then true else false.

(** Truth value of a [str]: non-empty. *)
Definition truthy (s : pystr) : bool :=
  match s with [] => false | _ :: _ => true end.

(** [str.isspace] on one code point: the characters [str.strip()] with no
    argument removes (bidirectional class WS, B or S, or category Zs). *)
Definition isspace (c : N) : bool :=
  (((9 <=? c) && (c <=? 13)) || ((28 <=? c) && (c <=? 32))
   || (c =? 133) || (c =? 160) || (c =? 5760)
   || ((8192 <=? c) && (c <=? 8202))
   || (c =? 8232) || (c =? 8233) || (c =? 8239) || (c =? 8287)
   || (c =? 12288))%N.

Fixpoint lstrip (s : pystr) : pystr :=
  match s with
  | [] => []
  | c :: r => if isspace c then lstrip r else s
  end.

Definition rstrip (s : pystr) : pystr := rev (lstrip (rev s)).

(** [s.strip()] *)
Definition strip (s : pystr) : pystr := rstrip (lstrip s).

(** The parts of the Unicode database the program reaches through
    [str.lower] and [int]: they are not part of the sources, so the
    development is generic in them. *)
Class Unicode := {
  (** [s.lower()] (full case mapping, so on whole strings) *)
  str_lower : pystr -> pystr;
  (** decimal value of a code point outside ASCII, if it is a digit *)
  to_decimal : N -> option N
}.

Definition ascii_lower_char (c : N) : N :=
  (if (65 <=? c) && (c <=? 90) then c + 32 else c)%N.

(** Tables that agree with Python's on ASCII text: used to run the
    embedding on concrete ASCII inputs. *)
Definition ascii_tables : Unicode := {|
  str_lower := map ascii_lower_char;
  to_decimal := fun _ => None
|}.

(* ================================================================== *)
(** * The builtin [int] on text *)
(* ================================================================== *)

Module PyInt.

(** C-level white space, skipped around the number. *)
Definition c_isspace (c : N) : bool :=
  (((9 <=? c) && (c <=? 13)) || (c =? 32))%N.

Definition underscore : N := 95.
Definition plus_sign : N := 43.
Definition minus_sign : N := 45.

Definition digit_value (c : N) : option Z :=
  if ((48 <=? c) && (c <=? 57))%N then Some (Z.of_N c - 48) else None.

Section Transform.
Context {U : Unicode}.

(** Unicode spaces become an ASCII space, Unicode decimal digits the
    ASCII digit; the first other non-ASCII character becomes ['?'] and
    ends the buffer. *)
Fixpoint to_ascii (s : pystr) : pystr :=
  match s with
  | [] => []
  | c :: r =>
      if (c <? 127)%N then c :: to_ascii r
      else if isspace c then 32%N :: to_ascii r
      else match to_decimal c with
           | Some d => (48 + d)%N :: to_ascii r
           | None => [63%N]
           end
  end.
End Transform.

Fixpoint skip_space (s : pystr) : pystr :=
  match s with
  | [] => []
  | c :: r => if c_isspace c then skip_space r else s
  end.

(** The digit scan in base 10: digits, with single underscores allowed
    between two digits.  [prev_us] says the previous character was an
    underscore; [n] counts the digits seen.  Returns the value, the
    number of digits and the unread rest; [None] on a doubled or a
    trailing underscore. *)
Fixpoint scan (s : pystr) (acc : Z) (n : nat) (prev_us : bool)
  : option (Z * nat * pystr) :=
  match s with
  | [] => if prev_us then None else Some (acc, n, [])
  | c :: r =>
      if (c =? underscore)%N then
        if prev_us then None else scan r acc n true
      else match digit_value c with
           | Some d => scan r (10 * acc + d) (S n) false
           | None => if prev_us then None else Some (acc, n, s)
           end
  end.

(** The default of [sys.int_info.default_max_str_digits]: a text with
    more digits is refused, with [ValueError] like every other refusal. *)
Definition max_str_digits : nat := 4300.

Definition parse_ascii (s : pystr) : option Z :=
  let s1 := skip_space s in
  let '(sign, s2) :=
    match s1 with
    | c :: r => if (c =? plus_sign)%N then (1, r)
                else if (c =? minus_sign)%N then (-1, r)
                else (1, s1)
    | [] => (1, s1)
    end in
  match s2 with
  | c :: _ => if (c =? underscore)%N then None
              else match scan s2 0 0 false with
                   | Some (v, S m, rest) =>
                       if (S m <=? max_str_digits)%nat then
                         match skip_space rest with
                         | [] => Some (sign * v)
                         | _ :: _ => None
                         end
                       else None
                   | _ => None
                   end
  | [] => None
  end.

(** [int(s)]: [None] stands for [ValueError]. *)
Definition int {U : Unicode} (s : pystr) : option Z := parse_ascii (to_ascii s).

End PyInt.

(* ================================================================== *)
(** * Values, exceptions, events *)
(* ================================================================== *)

(** What [row[label]] yields: the cell, or a Series of cells when several
    columns carry the label. *)
Inductive value :=
| Scalar (s : pystr)
| Series (cells : list pystr).

Inductive exn :=
| NameError (name : string)
| FileNotFoundError
| KeyError (args : list pystr)
| ValueError
| TypeError
| IndexError
| AttributeError
| JSONDecodeError
| UnknownValueError
| RequestError
| WaitTimeoutError
| UnicodeEncodeError
| OperationalError
| OtherException (tag : string)
| KeyboardInterrupt.

(** [isinstance(e, Exception)]: all but the interrupt. *)
Definition is_Exception (e : exn) : bool :=
  match e with KeyboardInterrupt => false | _ => true end.

(** The decoded body of a response. *)
#[warnings="-register-all"]
Inductive JSON :=
| JNull
| JBool (b : bool)
| JNum (literal : pystr)
| JStr (s : pystr)
| JArr (items : list JSON)
| JObj (members : list (pystr * JSON)).

Record Response := {
  status_code : Z;
  text : pystr;
  json : option JSON      (* [None]: the body does not decode *)
}.

Definition audio := list Z.

(** Text shown on the page and printed on the console, with the values
    the f-strings interpolate. *)
Inductive message :=
| Listening
| Processing
| Transcribed (response_text : pystr)
| NoSpeech
| NoResponse
| CaptureFailed (e : exn)
| Score (score : Z)
| TranscriptHeader
| TranscriptLine (question answer : pystr) (score : Z)
| NotUnderstood
| RequestFailed
| UnexpectedReply (score_text : pystr)
| ApiError (status : Z) (body : pystr).

Inductive event :=
| StTitle
| StTextInput
| StSubheader (number : Z) (question : value)
| StWrite (m : message)
| StError (m : message)
| StSuccess (total_score maximum : Z)
| Print (m : message)
| MicOpen
| MicClose
| Post (user_answer : pystr) (correct_answer : value)
| Sleep
| SqlConnect
| SqlCreateTable
| SqlInsert (name question response : pystr) (score : Z)
| SqlCommit
| SqlClose.

(* ================================================================== *)
(** * Computations: a trace of events and a value or an exception *)
(* ================================================================== *)

Inductive result (A : Type) :=
| Return (a : A)
| Raise (e : exn).
Arguments Return {A} a.
Arguments Raise {A} e.

Definition M (A : Type) : Type := list event * result A.

Definition ret {A} (a : A) : M A := ([], Return a).
Definition raise {A} (e : exn) : M A := ([], Raise e).
Definition emit (e : event) : M unit := ([e], Return tt).

Definition bind {A B} (m : M A) (f : A -> M B) : M B :=
  match m with
  | (t, Return a) => let '(t', r) := f a in (t ++ t', r)
  | (t, Raise e) => (t, Raise e)
  end.

Notation "x <- m ;; k" := (bind m (fun x => k))
  (at level 61, m at next level, right associativity).
Notation "m ;;; k" := (bind m (fun _ => k))
  (at level 61, right associativity).

(** A code point of the surrogate range.  Standard output as Python
    opens it under a UTF-8 locale (encoding UTF-8, error handler
    [strict]) writes every text but one that holds such a code point. *)
Definition is_surrogate (c : N) : bool := ((55296 <=? c) && (c <=? 57343))%N.

Definition encodable (s : pystr) : bool :=
  forallb (fun c => negb (is_surrogate c)) s.

(** The text a printed message interpolates from outside the program;
    the rest of every message is a literal of the source, or the digits
    of the status code, and holds no surrogate. *)
Definition quoted (m : message) : pystr :=
  match m with
  | UnexpectedReply score_text => score_text
  | ApiError _ body => body
  | _ => []
  end.

(** [print(f"...")]: the message reaches the console, or encoding it
    raises. *)
Definition print_ (m : message) : M unit :=
  if encodable (quoted m) then emit (Print m) else raise UnicodeEncodeError.

(** [try: m  except <clauses>]: [handler e] is [Some h] when a clause
    matches [e]. *)
Definition try_except {A} (m : M A) (handler : exn -> option (M A)) : M A :=
  match m with
  | (t, Return a) => (t, Return a)
  | (t, Raise e) =>
      match handler e with
      | Some h => let '(t', r) := h in (t ++ t', r)
      | None => (t, Raise e)
      end
  end.

(** [with <resource>: m]: the exit runs on every path out of the body. *)
Definition finally {A} (m : M A) (exit : event) : M A :=
  let '(t, r) := m in (t ++ [exit], r).

Definition trace {A} (m : M A) : list event := fst m.
Definition outcome {A} (m : M A) : result A := snd m.

(** What an external call does: it gives a value or throws. *)
Inductive ext (A : Type) :=
| Gives (a : A)
| Throws (e : exn).
Arguments Gives {A} a.
Arguments Throws {A} e.

Definition call {A} (x : ext A) : M A :=
  match x with Gives a => ret a | Throws e => raise e end.

(* ================================================================== *)
(** * Module names *)
(* ================================================================== *)

(** The names the module binds, in order: its imports (lines 1-7), the
    two assignments and the five functions.  Line 6 is
    [import speech_recognition], with no alias. *)
Definition module_names : list string :=
  ["os"; "time"; "sqlite3"; "st"; "pd"; "speech_recognition"; "requests";
   "openrouter_api_key"; "OPENROUTER_URL";
   "load_questions"; "transcribe_audio"; "score_response"; "save_results";
   "main"]%string.

Definition bound (names : list string) (n : string) : bool :=
  existsb (String.eqb n) names.

(** Reading a global name. *)
Definition resolve (names : list string) (n : string) : M unit :=
  if bound names n then ret tt else raise (NameError n).

(** [except] clauses that name their exception classes through the
    global [n]: matching an exception reads [n] first. *)
Definition clauses_reading {A} (names : list string) (n : string)
    (clauses : exn -> option (M A)) : exn -> option (M A) :=
  fun e => if bound names n then clauses e else Some (raise (NameError n)).

(* ================================================================== *)
(** * The question sheet *)
(* ================================================================== *)

(** A column label as [pd.read_excel] gives it: the text of the header
    cell, or, for a header cell that holds a number or a date, a label
    that is not text ([repr] is how it prints). *)
Inductive label :=
| Text (s : pystr)
| NonText (repr : pystr).

(** A frame with column labels of type [L]. *)
Record Frame (L : Type) := {
  columns : list L;
  rows : list (list pystr)
}.
Arguments columns {L} _.
Arguments rows {L} _.
Arguments Build_Frame {L} _ _.

(** What [pd.read_excel] gives: labels of any kind. *)
Definition Sheet := Frame label.

(** A frame all of whose labels are text: what line 25 leaves when it
    succeeds, and what the rest of the program works on. *)
Definition DataFrame := Frame pystr.

(** [x.strip()] on every label, in order: only text has the method. *)
Fixpoint strip_labels (labels : list label) : option (list pystr) :=
  match labels with
  | [] => Some []
  | Text s :: rest =>
      match strip_labels rest with
      | Some names => Some (strip s :: names)
      | None => None
      end
  | NonText _ :: _ => None
  end.

(** [df.rename(columns=f, inplace=True)] *)
Definition rename (f : pystr -> pystr) (df : DataFrame) : DataFrame :=
  {| columns := map f (columns df); rows := rows df |}.

(** [label in df.columns] *)
Definition has_column (label : pystr) (df : DataFrame) : bool :=
  existsb (pystr_eqb label) (columns df).

(** [len(df)] *)
Definition len (df : DataFrame) : Z := Z.of_nat (List.length (rows df)).

(** [df.iterrows()] under the default index: position and row. *)
Fixpoint iterrows_from (idx : Z) (rs : list (list pystr)) : list (Z * list pystr) :=
  match rs with
  | [] => []
  | r :: rest => (idx, r) :: iterrows_from (idx + 1) rest
  end.

Definition iterrows (df : DataFrame) : list (Z * list pystr) :=
  iterrows_from 0 (rows df).

(** The cells of a row under the columns named [label]. *)
Fixpoint cells_at (label : pystr) (cols : list pystr) (cells : list pystr)
  : list pystr :=
  match cols, cells with
  | c :: cols', x :: cells' =>
      if pystr_eqb c label then x :: cells_at label cols' cells'
      else cells_at label cols' cells'
  | _, _ => []
  end.

(** [row[label]] *)
Definition row_get (cols : list pystr) (cells : list pystr) (label : pystr)
  : M value :=
  match cells_at label cols cells with
  | [] => raise (KeyError [label])
  | [x] => ret (Scalar x)
  | xs => ret (Series xs)
  end.

(** A dictionary key must be hashable: a Series is not. *)
Definition as_key (v : value) : M pystr :=
  match v with
  | Scalar s => ret s
  | Series _ => raise TypeError
  end.

(* ================================================================== *)
(** * The outside world of one run *)
(* ================================================================== *)

(** What the database does at each call of lines 88-94: [None] when the
    call succeeds, the exception when it raises.  [execute 0] is the
    statement that creates the table, [execute n] the [n]-th insert. *)
Record Store := {
  connect : option exn;
  execute : nat -> option exn;
  commit : option exn;
  close : option exn
}.

(** What happens at one question: opening the microphone, listening, and
    the answer of the scoring endpoint. *)
Record Turn := {
  microphone : ext unit;
  listen : ext audio;
  post : ext Response
}.

Record World := {
  path_exists : bool;                       (* os.path.exists(file_path) *)
  read_excel : ext Sheet;                   (* pd.read_excel(file_path) *)
  text_input : pystr;                       (* st.text_input(...) *)
  recognize_google : audio -> ext pystr;    (* the transcription service *)
  turn : nat -> Turn;
  store : Store                             (* interviews.db *)
}.

Definition Question : pystr := lit "Question".
Definition Answer : pystr := lit "Answer".

(* ================================================================== *)
(** * Step 3: load_questions *)
(* ================================================================== *)

(** Line 25: [df.rename(columns=lambda x: x.strip(), inplace=True)].
    A label that is not text has no [strip]. *)
Definition rename_strip (df : Sheet) : M DataFrame :=
  match strip_labels (columns df) with
  | Some names => ret {| columns := names; rows := rows df |}
  | None => raise AttributeError
  end.

(** Lines 19-30.  The memoising decorator does not change what a call
    computes. *)
Definition load_questions (w : World) : M DataFrame :=
  if negb (path_exists w) then raise FileNotFoundError
  else
    df <- call (read_excel w) ;;
    df <- rename_strip df ;;
    if negb (has_column Question df) || negb (has_column Answer df)
    then raise (KeyError (columns df))
    else ret df.

(* ================================================================== *)
(** * Step 4: transcribe_audio *)
(* ================================================================== *)

(** Lines 33-44.  Line 34 reads the global [sr], and so do the two
    [except] clauses. *)
Definition transcribe_audio (names : list string)
    (recognize : audio -> ext pystr) (audio_data : audio) : M pystr :=
  resolve names "sr" ;;;
  try_except
    (response_text <- call (recognize audio_data) ;;
     ret (strip response_text))
    (clauses_reading names "sr"
       (fun e =>
          match e with
          | UnknownValueError => Some (emit (Print NotUnderstood) ;;; ret [])
          | RequestError => Some (emit (Print RequestFailed) ;;; ret [])
          | _ => None
          end)).

(* ================================================================== *)
(** * Step 5: score_response *)
(* ================================================================== *)

Fixpoint assoc (key : pystr) (members : list (pystr * JSON)) : option JSON :=
  match members with
  | [] => None
  | (k, v) :: rest => if pystr_eqb k key then Some v else assoc key rest
  end.

(** [v[key]] for a text key: only a dict has text keys. *)
Definition getitem (v : JSON) (key : pystr) : M JSON :=
  match v with
  | JObj members =>
      match assoc key members with
      | Some x => ret x
      | None => raise (KeyError [key])
      end
  | _ => raise TypeError
  end.

(** [v[0]] *)
Definition getitem0 (v : JSON) : M JSON :=
  match v with
  | JArr (x :: _) => ret x
  | JArr [] => raise IndexError
  | JStr (c :: _) => ret (JStr [c])
  | JStr [] => raise IndexError
  | JObj _ => raise (KeyError [lit "0"])
  | _ => raise TypeError
  end.

(** [v.strip()]: only text has the method. *)
Definition method_strip (v : JSON) : M pystr :=
  match v with
  | JStr s => ret (strip s)
  | _ => raise AttributeError
  end.

(** [response.json()] *)
Definition response_json (response : Response) : M JSON :=
  match json response with
  | Some v => ret v
  | None => raise JSONDecodeError
  end.

(** Line 72, up to the method call:
    [result["choices"][0]["message"]["content"]] *)
Definition message_content (result : JSON) : M JSON :=
  choices <- getitem result (lit "choices") ;;
  first <- getitem0 choices ;;
  message <- getitem first (lit "message") ;;
  getitem message (lit "content").

(** Line 72: [....strip()] *)
Definition completion (result : JSON) : M pystr :=
  content <- message_content result ;;
  method_strip content.

(** [min(max(score, 0), 10)] *)
Definition clamp (score : Z) : Z := Z.min (Z.max score 0) 10.

Section Scoring.
Context {U : Unicode}.

(** Lines 47-84.  [reply] is what [requests.post] does when called.
    The print of line 78 runs inside the handler of [ValueError], and
    that of line 81 outside any [try]: an exception of either leaves the
    function. *)
Definition score_response (reply : ext Response)
    (user_answer : pystr) (correct_answer : value) (use_ai : bool) : M Z :=
  if use_ai then
    emit (Post user_answer correct_answer) ;;;
    response <- call reply ;;
    if status_code response =? 200 then
      result <- response_json response ;;
      score_text <- completion result ;;
      match PyInt.int score_text with
      | Some score => ret (clamp score)
      | None => print_ (UnexpectedReply score_text) ;;; ret 0
      end
    else
      print_ (ApiError (status_code response) (text response)) ;;;
      ret 0
  else
    match correct_answer with
    | Scalar correct =>
        ret (if pystr_eqb (strip (str_lower user_answer))
                          (strip (str_lower correct))
             then 10 else 0)
    | Series _ => raise AttributeError
    end.
End Scoring.

(* ================================================================== *)
(** * Step 6: save_results *)
(* ================================================================== *)

(** The session's [responses]: a dict from question to (answer, score).
    It keeps insertion order; assigning to a key already present
    replaces the value in place. *)
Definition responses_dict := list (pystr * (pystr * Z)).

Fixpoint setitem (key : pystr) (v : pystr * Z) (d : responses_dict)
  : responses_dict :=
  match d with
  | [] => [(key, v)]
  | (k, x) :: rest =>
      if pystr_eqb k key then (k, v) :: rest
      else (k, x) :: setitem key v rest
  end.

Definition values (d : responses_dict) : list (pystr * Z) := map snd d.

Fixpoint for_each {A} (f : A -> M unit) (l : list A) : M unit :=
  match l with
  | [] => ret tt
  | x :: rest => f x ;;; for_each f rest
  end.

(** A call into the database: the event when it succeeds, the
    exception when it raises. *)
Definition db_call (failure : option exn) (e : event) : M unit :=
  match failure with
  | None => emit e
  | Some x => raise x
  end.

(** Lines 91-92: the inserts, the first of them being statement [n]. *)
Fixpoint insert_all (db : Store) (candidate_name : pystr) (n : nat)
    (responses : responses_dict) : M unit :=
  match responses with
  | [] => ret tt
  | (question, (response, score)) :: rest =>
      db_call (execute db n)
              (SqlInsert candidate_name question response score) ;;;
      insert_all db candidate_name (S n) rest
  end.

(** Lines 87-94. *)
Definition save_results (db : Store) (candidate_name : pystr)
    (responses : responses_dict) : M unit :=
  db_call (connect db) SqlConnect ;;;
  db_call (execute db 0) SqlCreateTable ;;;
  insert_all db candidate_name 1 responses ;;;
  db_call (commit db) SqlCommit ;;;
  db_call (close db) SqlClose.

(* ================================================================== *)
(** * Step 7: main *)
(* ================================================================== *)

(** [sum(score for _, score in responses.values())] *)
Definition total (responses : responses_dict) : Z :=
  fold_left Z.add (map snd (values responses)) 0.

Section Session.
Context {U : Unicode}.
Variable names : list string.
Variable w : World.

(** Lines 111-126: the body of the [with] block.  The first [except]
    clause names its class through [sr]. *)
Definition capture (t : Turn) : M pystr :=
  emit (StWrite Listening) ;;;
  try_except
    (audio_data <- call (listen t) ;;
     emit (StWrite Processing) ;;;
     response_text <- transcribe_audio names (recognize_google w) audio_data ;;
     if truthy response_text
     then emit (StWrite (Transcribed response_text)) ;;; ret response_text
     else emit (StError NoSpeech) ;;; ret [])
    (clauses_reading names "sr"
       (fun e =>
          match e with
          | WaitTimeoutError => Some (emit (StError NoResponse) ;;; ret [])
          | _ => if is_Exception e
                 then Some (emit (StError (CaptureFailed e)) ;;; ret [])
                 else None
          end)).

(** Lines 105-132: one pass of the loop. *)
Definition ask (cols : list pystr) (k : nat) (idx : Z) (row : list pystr)
    (responses : responses_dict) : M responses_dict :=
  question <- row_get cols row Question ;;
  emit (StSubheader (idx + 1) question) ;;;
  resolve names "sr" ;;;                          (* sr.Recognizer() *)
  call (microphone (turn w k)) ;;;                (* sr.Microphone(...) *)
  emit MicOpen ;;;
  response_text <- finally (capture (turn w k)) MicClose ;;
  correct_answer <- row_get cols row Answer ;;
  score <- score_response (post (turn w k)) response_text correct_answer true ;;
  question <- row_get cols row Question ;;
  key <- as_key question ;;
  let responses := setitem key (response_text, score) responses in
  emit (StWrite (Score score)) ;;;
  emit Sleep ;;;
  ret responses.

(** Line 104: the loop, from pass [k] on. *)
Fixpoint question_loop (cols : list pystr) (k : nat)
    (its : list (Z * list pystr)) (responses : responses_dict)
  : M responses_dict :=
  match its with
  | [] => ret responses
  | (idx, row) :: rest =>
      responses <- ask cols k idx row responses ;;
      question_loop cols (S k) rest responses
  end.

(** Lines 134-142. *)
Definition report (candidate_name : pystr) (questions_df : DataFrame)
    (responses : responses_dict) : M unit :=
  save_results (store w) candidate_name responses ;;;
  let total_score := total responses in
  emit (StSuccess total_score (len questions_df * 10)) ;;;
  emit (StWrite TranscriptHeader) ;;;
  for_each (fun '(question, (answer, score)) =>
              emit (StWrite (TranscriptLine question answer score)))
           responses.

(** Lines 97-142. *)
Definition main : M unit :=
  emit StTitle ;;;
  questions_df <- load_questions w ;;
  emit StTextInput ;;;
  let candidate_name := text_input w in
  if truthy candidate_name then
    responses <- question_loop (columns questions_df) 0
                   (iterrows questions_df) [] ;;
    report candidate_name questions_df responses
  else ret tt.
End Session.

(* ================================================================== *)
(** * The module body *)
(* ================================================================== *)

(** Lines 10-12: the key is read from the environment when the module
    is loaded; [getenv] is what [os.getenv("OPENROUTER_API_KEY")]
    gives, [None] for an unset variable.  [not key] holds for [None]
    and for the empty text. *)
Definition startup (getenv : option pystr) : M pystr :=
  match getenv with
  | Some openrouter_api_key =>
      if truthy openrouter_api_key then ret openrouter_api_key
      else raise ValueError
  | None => raise ValueError
  end.

(** The file run as a script: the module body, then line 145. *)
Definition script {U : Unicode} (getenv : option pystr)
    (names : list string) (w : World) : M unit :=
  startup getenv ;;; main names w.

(* ================================================================== *)
(** * Vocabulary of the statements *)
(* ================================================================== *)

(** The label is text. *)
Definition is_text (l : label) : bool :=
  match l with Text _ => true | NonText _ => false end.

(** All characters of [s] are white space. *)
Definition blank (s : pystr) : Prop := Forall (fun c => isspace c = true) s.

(** [s] starts with a character that is not white space. *)
Definition solid_head (s : pystr) : Prop :=
  match s with c :: _ => isspace c = false | [] => False end.

(** The reply decodes, and the path of line 72 leads to the text
    [content]. *)
Definition has_completion (response : Response) (content : pystr) : Prop :=
  exists result,
    json response = Some result /\
    message_content result = ret (JStr content).

(** A computation that shows, prints and stores nothing. *)
Definition silent {A} (m : M A) : Prop := trace m = [].

(** Events of the question loop. *)
Definition loop_event (e : event) : bool :=
  match e with
  | StSubheader _ _ | StWrite _ | StError _ | Print _
  | MicOpen | MicClose | Post _ _ | Sleep => true
  | _ => false
  end.

(** Events of the session proper: everything after the name field. *)
Definition session_event (e : event) : bool :=
  match e with
  | StTitle | StTextInput => false
  | _ => true
  end.

Definition all_loop (t : list event) : Prop :=
  Forall (fun e => loop_event e = true) t.

(** The scores held in the mapping, in its order. *)
Definition scores (responses : responses_dict) : list Z :=
  map (fun entry => snd (snd entry)) responses.

Definition sum_of (l : list Z) : Z := fold_right Z.add 0 l.

Definition stored (candidate_name : pystr) (entry : pystr * (pystr * Z)) : event :=
  SqlInsert candidate_name (fst entry) (fst (snd entry)) (snd (snd entry)).

Definition transcript_line (entry : pystr * (pystr * Z)) : event :=
  StWrite (TranscriptLine (fst entry) (fst (snd entry)) (snd (snd entry))).

(* ================================================================== *)
(** * Sample inputs *)
(* ================================================================== *)

(** A body in the shape of the endpoint's success response. *)
Definition chat_completion (content : pystr) : JSON :=
  JObj [(lit "id", JStr (lit "gen-1"));
        (lit "choices",
         JArr [JObj [(lit "message",
                      JObj [(lit "role", JStr (lit "assistant"));
                            (lit "content", JStr content)])]])].

Definition reply_of (status : Z) (content : pystr) : Response :=
  {| status_code := status;
     text := lit "(body)";
     json := Some (chat_completion content) |}.

(** The text of one code point, the surrogate U+D800: what the JSON
    escape of a lone surrogate decodes to. *)
Definition lone_surrogate : pystr := [55296%N].

(** The frame as a document whose header cells all hold text. *)
Definition as_sheet (df : DataFrame) : Sheet :=
  {| columns := map Text (columns df); rows := rows df |}.

(** A database every call of which succeeds. *)
Definition working_store : Store :=
  {| connect := None; execute := fun _ => None;
     commit := None; close := None |}.

(** Sample sheets and worlds. *)
Definition two_rows : list (list pystr) :=
  [[lit "What is 2+2?"; lit "4"]; [lit "Capital of France?"; lit "Paris"]].

Definition sheet_padded : DataFrame :=
  {| columns := [lit " Question"; lit "Answer  "]; rows := two_rows |}.

Definition sheet_no_answer : DataFrame :=
  {| columns := [lit "Question"; lit "Notes"]; rows := two_rows |}.

Definition sheet_other_case : DataFrame :=
  {| columns := [lit "question"; lit " ANSWER "]; rows := two_rows |}.

(** Headers [Question], [Answer] and a cell holding the number 42. *)
Definition sheet_numeric_header : Sheet :=
  {| columns := [Text (lit "Question"); Text (lit "Answer");
                 NonText (lit "42")];
     rows := [[lit "What is 2+2?"; lit "4"; lit "x"]] |}.

Definition empty_sheet : DataFrame :=
  {| columns := [lit "Question"; lit "Answer"]; rows := [] |}.

Definition silent_turn : Turn :=
  {| microphone := Gives tt;
     listen := Throws WaitTimeoutError;
     post := Gives (reply_of 200 (lit "0")) |}.

(** A run over the document [doc] ([None]: there is no document) in
    which nobody speaks. *)
Definition quiet_world (doc : option DataFrame) (name : pystr) : World :=
  {| path_exists := match doc with Some _ => true | None => false end;
     read_excel := match doc with
                   | Some df => Gives (as_sheet df)
                   | None => Throws FileNotFoundError
                   end;
     text_input := name;
     recognize_google := fun _ => Throws UnknownValueError;
     turn := fun _ => silent_turn;
     store := working_store |}.

(** A run over a document read as [sheet] in which nobody speaks. *)
Definition reading_world (sheet : Sheet) (name : pystr) : World :=
  {| path_exists := true;
     read_excel := Gives sheet;
     text_input := name;
     recognize_google := fun _ => Throws UnknownValueError;
     turn := fun _ => silent_turn;
     store := working_store |}.

(** The names of the module had line 6 been
    [import speech_recognition as sr]. *)
Definition names_with_alias : list string := "sr"%string :: module_names.

(** A run over the two-row sheet: the candidate says "4", then
    "London"; the endpoint answers "10", then "0". *)
Definition speaking_world : World :=
  {| path_exists := true;
     read_excel := Gives (as_sheet sheet_padded);
     text_input := lit "Ada";
     recognize_google := fun a =>
       match a with
       | [1] => Gives (lit " 4 ")
       | [2] => Gives (lit "London")
       | _ => Throws UnknownValueError
       end;
     turn := fun k =>
       match k with
       | O => {| microphone := Gives tt; listen := Gives [1];
                 post := Gives (reply_of 200 (lit "10")) |}
       | _ => {| microphone := Gives tt; listen := Gives [2];
                 post := Gives (reply_of 200 (lit "0")) |}
       end;
     store := working_store |}.

Definition speaking_responses : responses_dict :=
  [(lit "What is 2+2?", (lit "4", 10));
   (lit "Capital of France?", (lit "London", 0))].

(* ================================================================== *)
(** * Vocabulary of the further properties *)
(* ================================================================== *)

Definition is_post (e : event) : bool :=
  match e with Post _ _ => true | _ => false end.

Definition is_print (e : event) : bool :=
  match e with Print _ => true | _ => false end.

Definition is_mic_open (e : event) : bool :=
  match e with MicOpen => true | _ => false end.

Definition is_mic_close (e : event) : bool :=
  match e with MicClose => true | _ => false end.

Definition is_insert (e : event) : bool :=
  match e with SqlInsert _ _ _ _ => true | _ => false end.

(** Any statement sent to the database. *)
Definition is_sql (e : event) : bool :=
  match e with
  | SqlConnect | SqlCreateTable | SqlInsert _ _ _ _ | SqlCommit | SqlClose => true
  | _ => false
  end.

Definition is_aggregate (e : event) : bool :=
  match e with StSuccess _ _ => true | _ => false end.

Definition is_transcript_line (e : event) : bool :=
  match e with StWrite (TranscriptLine _ _ _) => true | _ => false end.

(** What the page shows or the console prints while an answer is
    captured. *)
Definition is_feedback (e : event) : bool :=
  match e with
  | StWrite Listening | StWrite Processing | StWrite (Transcribed _)
  | StError _ | Print _ => true
  | _ => false
  end.

(** The events of a pass of the loop. *)
Definition is_pass_event (e : event) : bool :=
  match e with
  | StSubheader _ _ | MicOpen | MicClose | Post _ _ | Sleep
  | StWrite (Score _) => true
  | _ => is_feedback e
  end.

Definition is_subheader (e : event) : bool :=
  match e with StSubheader _ _ => true | _ => false end.

Definition is_error (e : event) : bool :=
  match e with StError _ => true | _ => false end.

(** The score shown after a question. *)
Definition is_score (e : event) : bool :=
  match e with StWrite (Score _) => true | _ => false end.

(** Neither opens nor releases the microphone. *)
Definition off_microphone (e : event) : bool :=
  negb (is_mic_open e || is_mic_close e).

(** How many events of a trace satisfy [P]. *)
Definition count (P : event -> bool) (t : list event) : nat :=
  List.length (filter P t).

(** All events of a computation satisfy [P]. *)
Definition only (P : event -> bool) {A} (m : M A) : Prop :=
  Forall (fun e => P e = true) (trace m).

(** The entries of a sequence of assignments [d[key] = v], applied in
    order to the mapping [d]. *)
Definition assign_all (entries : list (pystr * (pystr * Z)))
    (d : responses_dict) : responses_dict :=
  fold_left (fun d entry => setitem (fst entry) (snd entry) d) entries d.



(** The score of an entry is between 0 and 10. *)
Definition in_range (entry : pystr * (pystr * Z)) : Prop :=
  0 <= snd (snd entry) <= 10.

(** A sheet in which the same question text stands in rows 1 and 3. *)
Definition sheet_repeated : DataFrame :=
  {| columns := [lit "Question"; lit "Answer"];
     rows := [[lit "Capital of France?"; lit "Paris"];
              [lit "What is 2+2?"; lit "4"];
              [lit "Capital of France?"; lit "Paris"]] |}.

(** A run in which the candidate never speaks and the endpoint gives 3
    to every question. *)
Definition lenient_world : World :=
  {| path_exists := true;
     read_excel := Gives (as_sheet sheet_padded);
     text_input := lit "Ada";
     recognize_google := fun _ => Throws UnknownValueError;
     turn := fun _ =>
       {| microphone := Gives tt;
          listen := Throws WaitTimeoutError;
          post := Gives (reply_of 200 (lit "3")) |};
     store := working_store |}.

(** A run in which the candidate never speaks and the endpoint is
    down. *)
Definition outage_world : World :=
  {| path_exists := true;
     read_excel := Gives (as_sheet sheet_padded);
     text_input := lit "Ada";
     recognize_google := fun _ => Throws RequestError;
     turn := fun _ =>
       {| microphone := Gives tt;
          listen := Throws WaitTimeoutError;
          post := Gives {| status_code := 503;
                           text := lit "Service Unavailable";
                           json := None |} |};
     store := working_store |}.

(** A run in which every question is answered "Paris" and the endpoint
    gives 10, then 0, then 7. *)
Definition repeating_world : World :=
  {| path_exists := true;
     read_excel := Gives (as_sheet sheet_repeated);
     text_input := lit "Ada";
     recognize_google := fun _ => Gives (lit "Paris");
     turn := fun k =>
       {| microphone := Gives tt; listen := Gives [1];
          post := Gives (reply_of 200
                           (match k with
                            | O => lit "10"
                            | S O => lit "0"
                            | _ => lit "7"
                            end)) |};
     store := working_store |}.

(** A database none of whose calls fails. *)
Definition reliable (db : Store) : Prop :=
  connect db = None /\ (forall n, execute db n = None)
  /\ commit db = None /\ close db = None.

(** A database that is locked when the second row is inserted. *)
Definition locked_store : Store :=
  {| connect := None;
     execute := fun n => match n with
                         | 2%nat => Some OperationalError
                         | _ => None
                         end;
     commit := None; close := None |}.

(** A run in which the candidate never speaks, the endpoint gives 3 to
    every question and the database is locked at the second row. *)
Definition locked_world : World :=
  {| path_exists := true;
     read_excel := Gives (as_sheet sheet_padded);
     text_input := lit "Ada";
     recognize_google := fun _ => Throws UnknownValueError;
     turn := fun _ =>
       {| microphone := Gives tt;
          listen := Throws WaitTimeoutError;
          post := Gives (reply_of 200 (lit "3")) |};
     store := locked_store |}.

(* ================================================================== *)
(** * Text lemmas *)
(* ================================================================== *)

Lemma pystr_eqb_eq (a b : pystr) : pystr_eqb a b = true <-> a = b.
Proof.
  unfold pystr_eqb. destruct (list_eq_dec N.eq_dec a b); split; congruence.
Qed.

Lemma pystr_eqb_neq (a b : pystr) : pystr_eqb a b = false <-> a <> b.
Proof.
  unfold pystr_eqb. destruct (list_eq_dec N.eq_dec a b); split; congruence.
Qed.

Lemma pystr_eqb_refl (a : pystr) : pystr_eqb a a = true.
Proof. now apply pystr_eqb_eq. Qed.

Lemma pystr_eqb_sym (a b : pystr) : pystr_eqb a b = pystr_eqb b a.
Proof.
  destruct (pystr_eqb b a) eqn:E.
  - apply pystr_eqb_eq in E. subst. apply pystr_eqb_refl.
  - apply pystr_eqb_neq in E. apply pystr_eqb_neq. congruence.
Qed.

Lemma lstrip_blank_app (pre s : pystr) :
  blank pre -> lstrip (pre ++ s) = lstrip s.
Proof.
  induction 1 as [|c pre Hc _ IH]; simpl; [reflexivity|].
  now rewrite Hc.
Qed.

Lemma lstrip_solid (s : pystr) : solid_head s -> lstrip s = s.
Proof.
  destruct s as [|c r]; simpl; [tauto|]. now intros ->.
Qed.

Lemma lstrip_blank (s : pystr) : blank s -> lstrip s = [].
Proof.
  intros H. rewrite <- (app_nil_r s). now rewrite lstrip_blank_app.
Qed.

Lemma blank_rev (s : pystr) : blank s -> blank (rev s).
Proof. apply Forall_rev. Qed.

(** [lstrip] removes a blank prefix and nothing else. *)
Lemma lstrip_split (s : pystr) :
  exists pre, s = pre ++ lstrip s /\ blank pre /\
              (lstrip s = [] \/ solid_head (lstrip s)).
Proof.
  induction s as [|c r (pre & E & B & T)]; simpl.
  - exists []. repeat split; [constructor | now left].
  - destruct (isspace c) eqn:Hc.
    + exists (c :: pre). repeat split.
      * simpl. now rewrite <- E.
      * now constructor.
      * exact T.
    + exists []. repeat split; [constructor | right; exact Hc].
Qed.

(** Padding a text that starts and ends with a solid character with
    white space on both sides does not change what [strip] returns. *)
Lemma strip_padded (pre core post : pystr) :
  blank pre -> blank post -> solid_head core -> solid_head (rev core) ->
  strip (pre ++ core ++ post) = core.
Proof.
  intros Hpre Hpost Hh Ht. unfold strip, rstrip.
  rewrite lstrip_blank_app by assumption.
  assert (Hs : solid_head (core ++ post)).
  { destruct core; simpl in *; [tauto | assumption]. }
  rewrite (lstrip_solid _ Hs), rev_app_distr.
  rewrite lstrip_blank_app by now apply blank_rev.
  rewrite (lstrip_solid _ Ht). apply rev_involutive.
Qed.

Lemma strip_solid (core : pystr) :
  solid_head core -> solid_head (rev core) -> strip core = core.
Proof.
  intros Hh Ht.
  rewrite <- (strip_padded [] core [] (Forall_nil _) (Forall_nil _) Hh Ht) at 2.
  now rewrite app_nil_r.
Qed.

(** [strip] removes a blank prefix and a blank suffix, and what is left
    is empty or starts and ends with a solid character. *)
Lemma strip_split (s : pystr) :
  exists pre post,
    s = pre ++ strip s ++ post /\ blank pre /\ blank post /\
    (strip s = [] \/ (solid_head (strip s) /\ solid_head (rev (strip s)))).
Proof.
  destruct (lstrip_split s) as (pre & Es & Bpre & Hl).
  destruct (lstrip_split (rev (lstrip s))) as (tsop & Er & Bpost & Hr).
  exists pre, (rev tsop).
  assert (El : lstrip s = strip s ++ rev tsop).
  { unfold strip, rstrip. rewrite <- rev_app_distr, <- Er.
    now rewrite rev_involutive. }
  split; [now rewrite <- El|]. split; [exact Bpre|].
  split; [now apply blank_rev|].
  destruct (strip s) as [|c r] eqn:E; [now left | right]. split.
  - destruct Hl as [Hl|Hl]; [rewrite Hl in El; discriminate El|].
    rewrite El in Hl. exact Hl.
  - rewrite <- E. unfold strip, rstrip. rewrite rev_involutive.
    destruct Hr as [Hr|Hr]; [|exact Hr].
    unfold strip, rstrip in E. rewrite Hr in E. discriminate E.
Qed.

Lemma strip_idempotent (s : pystr) : strip (strip s) = strip s.
Proof.
  destruct (strip_split s) as (_ & _ & _ & _ & _ & [E|[Hh Ht]]).
  - rewrite E. reflexivity.
  - now apply strip_solid.
Qed.

Lemma Question_solid : solid_head Question /\ solid_head (rev Question).
Proof. split; reflexivity. Qed.

Lemma Answer_solid : solid_head Answer /\ solid_head (rev Answer).
Proof. split; reflexivity. Qed.

(* ================================================================== *)
(** * Trace lemmas *)
(* ================================================================== *)

Lemma trace_bind {A B} (m : M A) (f : A -> M B) :
  trace (bind m f) =
  trace m ++ match outcome m with
             | Return a => trace (f a)
             | Raise _ => []
             end.
Proof.
  destruct m as [t [a|e]]; simpl.
  - destruct (f a); reflexivity.
  - now rewrite app_nil_r.
Qed.

Lemma outcome_bind {A B} (m : M A) (f : A -> M B) :
  outcome (bind m f) =
  match outcome m with
  | Return a => outcome (f a)
  | Raise e => Raise e
  end.
Proof.
  destruct m as [t [a|e]]; simpl; [destruct (f a)|]; reflexivity.
Qed.

Lemma bind_ret {A B} (a : A) (f : A -> M B) : bind (ret a) f = f a.
Proof. unfold bind, ret. now destruct (f a). Qed.

Lemma bind_raise {A B} (e : exn) (f : A -> M B) : bind (raise e) f = raise e.
Proof. reflexivity. Qed.

Lemma bind_emit {B} (e : event) (f : unit -> M B) :
  bind (emit e) f = (e :: trace (f tt), outcome (f tt)).
Proof. unfold bind, emit. now destruct (f tt). Qed.

Lemma M_eta {A} (m : M A) : m = (trace m, outcome m).
Proof. now destruct m. Qed.

Lemma trace_try_except {A} (m : M A) (handler : exn -> option (M A)) :
  trace (try_except m handler) =
  trace m ++ match outcome m with
             | Return _ => []
             | Raise e => match handler e with
                          | Some h => trace h
                          | None => []
                          end
             end.
Proof.
  destruct m as [t [a|e]]; simpl.
  - now rewrite app_nil_r.
  - destruct (handler e) as [[t' r]|]; simpl; [reflexivity|].
    now rewrite app_nil_r.
Qed.

Lemma outcome_try_except {A} (m : M A) (handler : exn -> option (M A)) :
  outcome (try_except m handler) =
  match outcome m with
  | Return a => Return a
  | Raise e => match handler e with
               | Some h => outcome h
               | None => Raise e
               end
  end.
Proof.
  destruct m as [t [a|e]]; simpl; [reflexivity|].
  now destruct (handler e) as [[t' r]|].
Qed.

Lemma trace_finally {A} (m : M A) (e : event) :
  trace (finally m e) = trace m ++ [e].
Proof. now destruct m. Qed.

Lemma outcome_finally {A} (m : M A) (e : event) :
  outcome (finally m e) = outcome m.
Proof. now destruct m. Qed.

Lemma trace_call {A} (x : ext A) : trace (call x) = [].
Proof. now destruct x. Qed.

Lemma trace_resolve names n : trace (resolve names n) = [].
Proof. unfold resolve. now destruct (bound names n). Qed.

Lemma trace_for_each {A} (f : A -> M unit) (l : list A) :
  (forall x, exists e, f x = emit e) ->
  trace (for_each f l) = flat_map (fun x => trace (f x)) l
  /\ outcome (for_each f l) = Return tt.
Proof.
  intros Hf. induction l as [|x l [IHt IHo]]; simpl; [now split|].
  destruct (Hf x) as [e He]. rewrite He, bind_emit. simpl.
  now rewrite IHt, IHo.
Qed.

Lemma for_each_emit {A} (f : A -> M unit) (g : A -> event) (l : list A) :
  (forall x, f x = emit (g x)) ->
  for_each f l = (map g l, Return tt).
Proof.
  intros Hf. induction l as [|x l IH]; simpl; [reflexivity|].
  now rewrite Hf, bind_emit, IH.
Qed.

Lemma silent_bind {A B} (m : M A) (f : A -> M B) :
  silent m -> (forall a, silent (f a)) -> silent (bind m f).
Proof.
  unfold silent. intros Hm Hf. rewrite trace_bind, Hm.
  destruct (outcome m); [apply Hf | reflexivity].
Qed.

Lemma silent_getitem v key : silent (getitem v key).
Proof.
  unfold silent, getitem. destruct v; try reflexivity.
  now destruct (assoc key members).
Qed.

Lemma silent_getitem0 v : silent (getitem0 v).
Proof. unfold silent. now destruct v as [| | | [|] | [|] |]. Qed.

Lemma silent_method_strip v : silent (method_strip v).
Proof. unfold silent. now destruct v. Qed.

Lemma silent_completion result : silent (completion result).
Proof.
  unfold completion, message_content.
  repeat (apply silent_bind; [|intros ?]);
    auto using silent_getitem, silent_getitem0, silent_method_strip.
Qed.

Lemma all_loop_bind {A B} (m : M A) (f : A -> M B) :
  all_loop (trace m) ->
  (forall a, outcome m = Return a -> all_loop (trace (f a))) ->
  all_loop (trace (bind m f)).
Proof.
  intros Hm Hf. rewrite trace_bind. apply Forall_app. split; [exact Hm|].
  destruct (outcome m) as [a|e]; [now apply Hf | constructor].
Qed.

Lemma all_loop_emit (e : event) :
  loop_event e = true -> all_loop (trace (emit e)).
Proof. intros H. repeat constructor. exact H. Qed.

Lemma all_loop_nil {A} (m : M A) : trace m = [] -> all_loop (trace m).
Proof. intros ->. constructor. Qed.

Lemma all_loop_try_except {A} (m : M A) (handler : exn -> option (M A)) :
  all_loop (trace m) ->
  (forall e h, handler e = Some h -> all_loop (trace h)) ->
  all_loop (trace (try_except m handler)).
Proof.
  intros Hm Hh. rewrite trace_try_except. apply Forall_app. split; [exact Hm|].
  destruct (outcome m) as [a|e]; [constructor|].
  destruct (handler e) as [h|] eqn:E; [now apply (Hh e) | constructor].
Qed.

Lemma trace_row_get cols row label : trace (row_get cols row label) = [].
Proof. unfold row_get. now destruct (cells_at label cols row) as [|x [|y l]]. Qed.

Lemma trace_as_key v : trace (as_key v) = [].
Proof. now destruct v. Qed.

Lemma only_bind (P : event -> bool) {A B} (m : M A) (f : A -> M B) :
  only P m -> (forall a, outcome m = Return a -> only P (f a)) ->
  only P (bind m f).
Proof.
  unfold only. intros Hm Hf. rewrite trace_bind. apply Forall_app.
  split; [exact Hm|].
  destruct (outcome m) as [a|e]; [now apply Hf | constructor].
Qed.

Lemma only_emit (P : event -> bool) (e : event) :
  P e = true -> only P (emit e).
Proof. intros H. repeat constructor. exact H. Qed.

Lemma only_silent (P : event -> bool) {A} (m : M A) :
  trace m = [] -> only P m.
Proof. unfold only. intros ->. constructor. Qed.

Lemma only_try_except (P : event -> bool) {A} (m : M A)
      (handler : exn -> option (M A)) :
  only P m -> (forall e h, handler e = Some h -> only P h) ->
  only P (try_except m handler).
Proof.
  unfold only. intros Hm Hh. rewrite trace_try_except. apply Forall_app.
  split; [exact Hm|].
  destruct (outcome m) as [a|e]; [constructor|].
  destruct (handler e) as [h|] eqn:E; [now apply (Hh e) | constructor].
Qed.

Lemma count_app (P : event -> bool) (t t' : list event) :
  count P (t ++ t') = (count P t + count P t')%nat.
Proof. unfold count. now rewrite filter_app, length_app. Qed.

Lemma count_none (P Q : event -> bool) (t : list event) :
  (forall e, Q e = true -> P e = false) ->
  Forall (fun e => Q e = true) t -> count P t = 0%nat.
Proof.
  intros HQ Ht. unfold count. induction Ht as [|e t He _ IH]; [reflexivity|].
  simpl. now rewrite (HQ e He).
Qed.

Lemma filter_none (P Q : event -> bool) (t : list event) :
  (forall e, Q e = true -> P e = false) ->
  Forall (fun e => Q e = true) t -> filter P t = [].
Proof.
  intros HQ Ht. induction Ht as [|e t He _ IH]; [reflexivity|].
  simpl. now rewrite (HQ e He).
Qed.

Lemma filter_map_all {A} (P : event -> bool) (f : A -> event) (l : list A) :
  (forall x, P (f x) = true) -> filter P (map f l) = map f l.
Proof.
  intros H. induction l as [|x l IH]; simpl; [reflexivity|].
  now rewrite H, IH.
Qed.

Lemma filter_map_none {A} (P : event -> bool) (f : A -> event) (l : list A) :
  (forall x, P (f x) = false) -> filter P (map f l) = [].
Proof.
  intros H. induction l as [|x l IH]; simpl; [reflexivity|].
  now rewrite H, IH.
Qed.

Lemma bind_raise' {A B} (t : list event) (e : exn) (f : A -> M B) :
  bind (t, Raise e) f = (t, Raise e).
Proof. reflexivity. Qed.

Lemma count_one (P : event -> bool) (e : event) :
  count P [e] = if P e then 1%nat else 0%nat.
Proof. unfold count. simpl. now destruct (P e). Qed.

Lemma count_cons (P : event -> bool) (e : event) (t : list event) :
  count P (e :: t) = ((if P e then 1 else 0) + count P t)%nat.
Proof. unfold count. simpl. now destruct (P e). Qed.

(* ================================================================== *)
(** * The builtin [int]: facts *)
(* ================================================================== *)

Section IntFacts.
Context {U : Unicode}.

(** On ASCII text the transformation is the identity, so [int] does not
    depend on the Unicode tables there. *)
Lemma to_ascii_ascii (s : pystr) :
  Forall (fun c => (c < 127)%N) s -> PyInt.to_ascii s = s.
Proof.
  induction 1 as [|c r Hc _ IH]; simpl; [reflexivity|].
  apply N.ltb_lt in Hc. now rewrite Hc, IH.
Qed.

Lemma int_ascii (s : pystr) :
  Forall (fun c => (c < 127)%N) s -> PyInt.int s = PyInt.parse_ascii s.
Proof. intros H. unfold PyInt.int. now rewrite to_ascii_ascii. Qed.

End IntFacts.

(** What [int] accepts and refuses. *)
Example int_examples :
  PyInt.int (U := ascii_tables) (lit "15") = Some 15
  /\ PyInt.int (U := ascii_tables) (lit "-3") = Some (-3)
  /\ PyInt.int (U := ascii_tables) (lit "+007") = Some 7
  /\ PyInt.int (U := ascii_tables) (lit " 10 ") = Some 10
  /\ PyInt.int (U := ascii_tables) (lit "1_000") = Some 1000
  /\ PyInt.int (U := ascii_tables) (lit "1__0") = None
  /\ PyInt.int (U := ascii_tables) (lit "_1") = None
  /\ PyInt.int (U := ascii_tables) (lit "1_") = None
  /\ PyInt.int (U := ascii_tables) (lit "- 5") = None
  /\ PyInt.int (U := ascii_tables) (lit "7.5") = None
  /\ PyInt.int (U := ascii_tables) (lit "8/10") = None
  /\ PyInt.int (U := ascii_tables) (lit "ten") = None
  /\ PyInt.int (U := ascii_tables) (lit "") = None.
Proof. repeat split. Qed.

(** The digit limit: 4300 digits are read, leading zeros counted, and
    one digit more is refused; the scoring then falls back to 0. *)
Example int_digit_limit :
  PyInt.int (U := ascii_tables) (repeat 48%N 4300) = Some 0
  /\ PyInt.int (U := ascii_tables) (repeat 48%N 4301) = None
  /\ PyInt.int (U := ascii_tables) (45%N :: repeat 48%N 4300) = Some 0.
Proof. vm_compute. repeat split. Qed.

(* ================================================================== *)
(** * Scoring: the properties *)
(* ================================================================== *)

Lemma reply_of_has_completion status content :
  has_completion (reply_of status content) content.
Proof. exists (chat_completion content). split; reflexivity. Qed.

Lemma clamp_range (score : Z) : 0 <= clamp score <= 10.
Proof. unfold clamp. lia. Qed.

Lemma clamp_cases (n : Z) :
  (10 <= n -> clamp n = 10) /\ (n <= 0 -> clamp n = 0) /\
  (0 <= n <= 10 -> clamp n = n).
Proof. unfold clamp. lia. Qed.

Section ScoringFacts.
Context {U : Unicode}.

(** What the model branch does with a reply that carries a completion. *)
Lemma score_response_model_unfold user_answer correct_answer response content :
  has_completion response content ->
  score_response (Gives response) user_answer correct_answer true =
  if status_code response =? 200 then
    match PyInt.int (strip content) with
    | Some score => ([Post user_answer correct_answer], Return (clamp score))
    | None =>
        if encodable (strip content)
        then ([Post user_answer correct_answer;
               Print (UnexpectedReply (strip content))], Return 0)
        else ([Post user_answer correct_answer], Raise UnicodeEncodeError)
    end
  else
    if encodable (text response)
    then ([Post user_answer correct_answer;
           Print (ApiError (status_code response) (text response))], Return 0)
    else ([Post user_answer correct_answer], Raise UnicodeEncodeError).
Proof.
  intros (result & Hj & Hc). unfold score_response.
  rewrite bind_emit. simpl call. rewrite bind_ret.
  destruct (status_code response =? 200).
  - unfold response_json. rewrite Hj, bind_ret.
    unfold completion. rewrite Hc, bind_ret. simpl method_strip.
    rewrite bind_ret.
    destruct (PyInt.int (strip content)); [reflexivity|].
    unfold print_. cbn [quoted].
    destruct (encodable (strip content)); reflexivity.
  - unfold print_. cbn [quoted].
    destruct (encodable (text response)); reflexivity.
Qed.

(** The [else] branch of line 80. *)
Lemma score_response_else_branch user_answer correct_answer response :
  (status_code response =? 200) = false ->
  score_response (Gives response) user_answer correct_answer true
  = if encodable (text response)
    then ([Post user_answer correct_answer;
           Print (ApiError (status_code response) (text response))],
          Return 0)
    else ([Post user_answer correct_answer], Raise UnicodeEncodeError).
Proof.
  intros Hs. unfold score_response.
  rewrite bind_emit. simpl call. rewrite bind_ret, Hs.
  unfold print_. cbn [quoted].
  destruct (encodable (text response)); reflexivity.
Qed.

(** Whatever the reply and the mode, a score that is returned lies
    between 0 and 10. *)
Lemma score_response_returns_in_range reply user_answer correct_answer use_ai score :
  outcome (score_response reply user_answer correct_answer use_ai)
  = Return score ->
  0 <= score <= 10.
Proof.
  unfold score_response. destruct use_ai.
  - rewrite bind_emit. cbn [outcome snd].
    destruct reply as [response|e]; cbn [call]; [|discriminate].
    rewrite bind_ret. destruct (status_code response =? 200).
    + rewrite outcome_bind.
      destruct (outcome (response_json response)); [|discriminate].
      rewrite outcome_bind.
      destruct (outcome (completion a)) as [score_text|]; [|discriminate].
      destruct (PyInt.int score_text).
      * intros [= <-]. apply clamp_range.
      * unfold print_. destruct (encodable _); [|discriminate].
        intros [= <-]. lia.
    + unfold print_. destruct (encodable _); [|discriminate].
      intros [= <-]. lia.
  - destruct correct_answer; [|discriminate].
    destruct (pystr_eqb _ _); intros [= <-]; lia.
Qed.

(** C1. With the model disabled, scoring returns 10 when the candidate
    answer and the reference answer are equal after lower-casing and
    trimming white space at both ends, and 0 when they are not; no
    request is made and nothing is printed. *)
Theorem score_response_plain_exact reply (user_answer correct_answer : pystr) :
  (strip (str_lower user_answer) = strip (str_lower correct_answer) ->
   score_response reply user_answer (Scalar correct_answer) false
   = ([], Return 10))
  /\
  (strip (str_lower user_answer) <> strip (str_lower correct_answer) ->
   score_response reply user_answer (Scalar correct_answer) false
   = ([], Return 0)).
Proof.
  unfold score_response, ret. split; intros H.
  - apply pystr_eqb_eq in H. now rewrite H.
  - apply pystr_eqb_neq in H. now rewrite H.
Qed.

(** C10. With the model disabled, scoring is symmetric: exchanging the
    candidate answer and the reference answer gives the same result. *)
Theorem score_response_plain_symmetric reply reply' (a b : pystr) :
  score_response reply a (Scalar b) false
  = score_response reply' b (Scalar a) false.
Proof.
  unfold score_response.
  now rewrite (pystr_eqb_sym (strip (str_lower a)) (strip (str_lower b))).
Qed.

(** C2. With the model enabled and a reply under status 200 that holds a
    completion text: a text that parses as the integer [n] is scored
    [n] clamped into 0..10 (the text 15 gives 10, the text -3 gives 0),
    and whatever the reply, a score that is returned lies between 0 and
    10.  But no integer is returned for every such reply: when the text
    does not parse and holds a surrogate code point, the print of line
    78 raises [UnicodeEncodeError] inside the handler, and the exception
    leaves the function. *)
Theorem score_response_model_outcome
    user_answer correct_answer response content :
  (forall score,
     outcome (score_response (Gives response) user_answer correct_answer true)
     = Return score -> 0 <= score <= 10)
  /\
  (has_completion response content -> status_code response = 200 ->
   forall n, PyInt.int (strip content) = Some n ->
     score_response (Gives response) user_answer correct_answer true
     = ([Post user_answer correct_answer], Return (clamp n))
     /\ (10 <= n -> clamp n = 10) /\ (n <= 0 -> clamp n = 0)
     /\ (0 <= n <= 10 -> clamp n = n))
  /\
  (has_completion response content -> status_code response = 200 ->
   PyInt.int (strip content) = None -> encodable (strip content) = false ->
   score_response (Gives response) user_answer correct_answer true
   = ([Post user_answer correct_answer], Raise UnicodeEncodeError))
  /\
  (score_response (Gives (reply_of 200 (lit "15")))
                  user_answer correct_answer true
   = ([Post user_answer correct_answer], Return 10)
   /\ score_response (Gives (reply_of 200 (lit "-3")))
                     user_answer correct_answer true
      = ([Post user_answer correct_answer], Return 0)).
Proof.
  split; [|split; [|split]].
  - intros score. apply score_response_returns_in_range.
  - intros H Hs n Hn. rewrite (score_response_model_unfold _ _ _ _ H), Hn.
    apply Z.eqb_eq in Hs. rewrite Hs. split; [reflexivity|].
    apply clamp_cases.
  - intros H Hs Hn He. rewrite (score_response_model_unfold _ _ _ _ H), Hn, He.
    apply Z.eqb_eq in Hs. now rewrite Hs.
  - split; reflexivity.
Qed.

(** C3. With the model enabled and a reply under status 200 whose
    completion text does not parse as an integer: when the text holds
    no surrogate code point the warning that quotes it is printed and 0
    is returned; when it holds one, the print of line 78 raises
    [UnicodeEncodeError] inside the handler and the exception reaches
    the caller. *)
Theorem score_response_unparseable user_answer correct_answer response content :
  has_completion response content ->
  status_code response = 200 ->
  PyInt.int (strip content) = None ->
  (encodable (strip content) = true ->
   score_response (Gives response) user_answer correct_answer true
   = ([Post user_answer correct_answer;
       Print (UnexpectedReply (strip content))], Return 0))
  /\
  (encodable (strip content) = false ->
   score_response (Gives response) user_answer correct_answer true
   = ([Post user_answer correct_answer], Raise UnicodeEncodeError)).
Proof.
  intros H Hs Hn. rewrite (score_response_model_unfold _ _ _ _ H), Hn.
  apply Z.eqb_eq in Hs. rewrite Hs.
  split; intros ->; reflexivity.
Qed.

End ScoringFacts.

(** The two end-to-end replies of the scoring endpoint, and a negative
    one, under the status of success. *)
Example score_15_is_10 :
  score_response (U := ascii_tables) (Gives (reply_of 200 (lit "15")))
                 (lit "four") (Scalar (lit "4")) true
  = ([Post (lit "four") (Scalar (lit "4"))], Return 10).
Proof. reflexivity. Qed.

Example score_7_5_is_0 :
  score_response (U := ascii_tables) (Gives (reply_of 200 (lit "7.5")))
                 (lit "four") (Scalar (lit "4")) true
  = ([Post (lit "four") (Scalar (lit "4"));
      Print (UnexpectedReply (lit "7.5"))], Return 0).
Proof. reflexivity. Qed.

Example score_minus_3_is_0 :
  outcome (score_response (U := ascii_tables)
             (Gives (reply_of 200 (lit " -3 ")))
             (lit "four") (Scalar (lit "4")) true)
  = Return 0.
Proof. reflexivity. Qed.

(** Outside the replies C2 ranges over: a body that does not decode
    under status 200 is not caught in [score_response]. *)
Example score_undecodable_body_raises :
  outcome (score_response (U := ascii_tables)
             (Gives {| status_code := 200; text := lit "<html>"; json := None |})
             (lit "four") (Scalar (lit "4")) true)
  = Raise JSONDecodeError.
Proof. reflexivity. Qed.

(** A completion text the console cannot write: the handler of line 77
    is entered and its print raises. *)
Example score_surrogate_reply_raises :
  score_response (U := ascii_tables) (Gives (reply_of 200 lone_surrogate))
                 (lit "four") (Scalar (lit "4")) true
  = ([Post (lit "four") (Scalar (lit "4"))], Raise UnicodeEncodeError).
Proof. reflexivity. Qed.

(** The same under a status of failure, with such a body text. *)
Example score_surrogate_body_raises :
  score_response (U := ascii_tables)
    (Gives {| status_code := 503; text := lone_surrogate; json := None |})
    (lit "four") (Scalar (lit "4")) true
  = ([Post (lit "four") (Scalar (lit "4"))], Raise UnicodeEncodeError).
Proof. reflexivity. Qed.

(** A completion text of 4301 digits is refused by [int] and scored 0. *)
Example score_too_many_digits_is_0 :
  outcome (score_response (U := ascii_tables)
             (Gives (reply_of 200 (repeat 57%N 4301)))
             (lit "four") (Scalar (lit "4")) true)
  = Return 0.
Proof. vm_compute. reflexivity. Qed.

Lemma score_response_plain_exact_witness :
  score_response (U := ascii_tables) (Throws RequestError)
                 (lit " PARIS") (Scalar (lit "paris  ")) false
  = ([], Return 10)
  /\
  score_response (U := ascii_tables) (Throws RequestError)
                 (lit "London") (Scalar (lit "Paris")) false
  = ([], Return 0).
Proof.
  split.
  - apply (proj1 (score_response_plain_exact (U := ascii_tables)
                    (Throws RequestError) (lit " PARIS") (lit "paris  "))).
    reflexivity.
  - apply (proj2 (score_response_plain_exact (U := ascii_tables)
                    (Throws RequestError) (lit "London") (lit "Paris"))).
    vm_compute. discriminate.
Defined.

Lemma score_response_model_outcome_witness :
  score_response (U := ascii_tables) (Gives (reply_of 200 (lit "15")))
                 (lit "four") (Scalar (lit "4")) true
  = ([Post (lit "four") (Scalar (lit "4"))], Return 10)
  /\
  score_response (U := ascii_tables) (Gives (reply_of 200 (lit "-3")))
                 (lit "four") (Scalar (lit "4")) true
  = ([Post (lit "four") (Scalar (lit "4"))], Return 0)
  /\
  score_response (U := ascii_tables) (Gives (reply_of 200 lone_surrogate))
                 (lit "four") (Scalar (lit "4")) true
  = ([Post (lit "four") (Scalar (lit "4"))], Raise UnicodeEncodeError).
Proof.
  split; [|split].
  - exact (proj1 (proj1 (proj2 (score_response_model_outcome
                                  (U := ascii_tables)
                                  (lit "four") (Scalar (lit "4"))
                                  (reply_of 200 (lit "15")) (lit "15")))
                          (reply_of_has_completion _ _) eq_refl 15 eq_refl)).
  - exact (proj1 (proj1 (proj2 (score_response_model_outcome
                                  (U := ascii_tables)
                                  (lit "four") (Scalar (lit "4"))
                                  (reply_of 200 (lit "-3")) (lit "-3")))
                          (reply_of_has_completion _ _) eq_refl (-3) eq_refl)).
  - apply (proj1 (proj2 (proj2 (score_response_model_outcome
                                  (U := ascii_tables)
                                  (lit "four") (Scalar (lit "4"))
                                  (reply_of 200 lone_surrogate)
                                  lone_surrogate))));
      [apply reply_of_has_completion | reflexivity | reflexivity | reflexivity].
Defined.

Lemma score_response_unparseable_witness :
  score_response (U := ascii_tables) (Gives (reply_of 200 (lit "7.5")))
                 (lit "four") (Scalar (lit "4")) true
  = ([Post (lit "four") (Scalar (lit "4"));
      Print (UnexpectedReply (lit "7.5"))], Return 0)
  /\
  score_response (U := ascii_tables) (Gives (reply_of 200 lone_surrogate))
                 (lit "four") (Scalar (lit "4")) true
  = ([Post (lit "four") (Scalar (lit "4"))], Raise UnicodeEncodeError)
  /\
  score_response (U := ascii_tables)
                 (Gives (reply_of 200 (repeat 57%N 4301)))
                 (lit "four") (Scalar (lit "4")) true
  = ([Post (lit "four") (Scalar (lit "4"));
      Print (UnexpectedReply (strip (repeat 57%N 4301)))], Return 0).
Proof.
  split; [|split].
  - apply (proj1 (score_response_unparseable (U := ascii_tables)
                    (lit "four") (Scalar (lit "4"))
                    (reply_of 200 (lit "7.5")) (lit "7.5")
                    (reply_of_has_completion _ _) eq_refl eq_refl)).
    reflexivity.
  - apply (proj2 (score_response_unparseable (U := ascii_tables)
                    (lit "four") (Scalar (lit "4"))
                    (reply_of 200 lone_surrogate) lone_surrogate
                    (reply_of_has_completion _ _) eq_refl eq_refl)).
    reflexivity.
  - apply (proj1 (score_response_unparseable (U := ascii_tables)
                    (lit "four") (Scalar (lit "4"))
                    (reply_of 200 (repeat 57%N 4301)) (repeat 57%N 4301)
                    (reply_of_has_completion _ _) eq_refl
                    ltac:(vm_compute; reflexivity))).
    vm_compute. reflexivity.
Defined.

(* ================================================================== *)
(** * The question loader: the properties *)
(* ================================================================== *)

Lemma has_column_In (label : pystr) (df : DataFrame) :
  has_column label df = true <-> In label (columns df).
Proof.
  unfold has_column. rewrite existsb_exists. split.
  - intros (c & Hin & Heq). apply pystr_eqb_eq in Heq. now subst.
  - intros Hin. exists label. split; [assumption | apply pystr_eqb_refl].
Qed.

Lemma has_column_not_In (label : pystr) (df : DataFrame) :
  has_column label df = false <-> ~ In label (columns df).
Proof.
  rewrite <- has_column_In. destruct (has_column label df); split; congruence.
Qed.

Lemma strip_labels_text (names : list pystr) :
  strip_labels (map Text names) = Some (map strip names).
Proof.
  induction names as [|c names IH]; simpl; [reflexivity|]. now rewrite IH.
Qed.

Lemma strip_labels_some (labels : list label) (names : list pystr) :
  strip_labels labels = Some names ->
  exists texts, labels = map Text texts /\ names = map strip texts.
Proof.
  revert names. induction labels as [|[s|r] labels IH]; simpl; intros names H.
  - injection H as <-. now exists [].
  - destruct (strip_labels labels) as [rest|]; [|discriminate].
    injection H as <-. destruct (IH rest eq_refl) as (texts & -> & ->).
    now exists (s :: texts).
  - discriminate.
Qed.

Lemma strip_labels_none (labels : list label) :
  strip_labels labels = None <-> Exists (fun l => is_text l = false) labels.
Proof.
  induction labels as [|[s|r] labels IH]; simpl.
  - split; [discriminate | intros H; inversion H].
  - destruct (strip_labels labels) as [rest|].
    + split; [discriminate|]. intros H. inversion H; subst; [discriminate|].
      apply IH in H1. discriminate H1.
    + split; [|reflexivity]. intros _. apply Exists_cons_tl. now apply IH.
  - split; [|reflexivity]. intros _. now apply Exists_cons_hd.
Qed.

(** Line 25 on a document whose header cells all hold text. *)
Lemma rename_strip_text (df : DataFrame) :
  rename_strip (as_sheet df) = ret (rename strip df).
Proof. unfold rename_strip, as_sheet. simpl. now rewrite strip_labels_text. Qed.

(** Line 25 on a document with a header cell that is not text. *)
Lemma rename_strip_nontext (sheet : Sheet) :
  Exists (fun l => is_text l = false) (columns sheet) ->
  rename_strip sheet = raise AttributeError.
Proof.
  intros H. apply strip_labels_none in H. unfold rename_strip. now rewrite H.
Qed.

Lemma trace_rename_strip (sheet : Sheet) : trace (rename_strip sheet) = [].
Proof. unfold rename_strip. now destruct (strip_labels (columns sheet)). Qed.

(** The loader after a successful read of a document with text headers,
    by the two membership tests. *)
Lemma load_questions_read w (df : DataFrame) :
  path_exists w = true -> read_excel w = Gives (as_sheet df) ->
  load_questions w =
  if has_column Question (rename strip df) && has_column Answer (rename strip df)
  then ret (rename strip df)
  else raise (KeyError (map strip (columns df))).
Proof.
  intros He Hr. unfold load_questions. rewrite He, Hr.
  cbn [negb call]. rewrite bind_ret, rename_strip_text, bind_ret.
  destruct (has_column Question _), (has_column Answer _); reflexivity.
Qed.

Lemma trace_load_questions w : trace (load_questions w) = [].
Proof.
  unfold load_questions. destruct (path_exists w); cbn [negb]; [|reflexivity].
  destruct (read_excel w) as [sheet|e]; cbn [call]; [|reflexivity].
  rewrite bind_ret. unfold rename_strip.
  destruct (strip_labels (columns sheet)); [|reflexivity].
  rewrite bind_ret.
  destruct (has_column Question _), (has_column Answer _); reflexivity.
Qed.

(** C5. The loader raises the not-found error when the document does
    not exist.  When it exists and all its column names are text: if,
    after trimming them, [Question] or [Answer] is not among them, it
    raises the schema error (a [KeyError] listing the trimmed names),
    and if both are among them it returns the table under the trimmed
    names.  But a document with a column name that is not text (a
    header cell holding a number) makes line 25 raise [AttributeError],
    also when [Question] and [Answer] are both present. *)
Theorem load_questions_contract (w : World) :
  (path_exists w = false -> load_questions w = raise FileNotFoundError)
  /\
  (forall df : DataFrame,
     path_exists w = true -> read_excel w = Gives (as_sheet df) ->
     ~ In Question (map strip (columns df)) \/
     ~ In Answer (map strip (columns df)) ->
     load_questions w = raise (KeyError (map strip (columns df))))
  /\
  (forall df : DataFrame,
     path_exists w = true -> read_excel w = Gives (as_sheet df) ->
     In Question (map strip (columns df)) ->
     In Answer (map strip (columns df)) ->
     load_questions w = ret (rename strip df))
  /\
  (forall sheet : Sheet,
     path_exists w = true -> read_excel w = Gives sheet ->
     Exists (fun l => is_text l = false) (columns sheet) ->
     load_questions w = raise AttributeError).
Proof.
  split; [|split; [|split]].
  - intros He. unfold load_questions. now rewrite He.
  - intros df He Hr Hmiss. rewrite (load_questions_read _ _ He Hr).
    destruct Hmiss as [Hq|Ha].
    + apply (has_column_not_In Question (rename strip df)) in Hq.
      now rewrite Hq.
    + apply (has_column_not_In Answer (rename strip df)) in Ha.
      rewrite Ha. now rewrite andb_false_r.
  - intros df He Hr Hq Ha. rewrite (load_questions_read _ _ He Hr).
    apply (has_column_In Question (rename strip df)) in Hq.
    apply (has_column_In Answer (rename strip df)) in Ha.
    now rewrite Hq, Ha.
  - intros sheet He Hr Hn. unfold load_questions. rewrite He, Hr.
    cbn [negb call]. rewrite bind_ret, (rename_strip_nontext _ Hn).
    reflexivity.
Qed.

Lemma load_questions_contract_witness :
  load_questions (quiet_world None []) = raise FileNotFoundError
  /\ load_questions (quiet_world (Some sheet_no_answer) [])
     = raise (KeyError [lit "Question"; lit "Notes"])
  /\ load_questions (quiet_world (Some sheet_padded) [])
     = ret {| columns := [lit "Question"; lit "Answer"]; rows := two_rows |}
  /\ load_questions (reading_world sheet_numeric_header [])
     = raise AttributeError.
Proof.
  split; [|split; [|split]].
  - apply (proj1 (load_questions_contract (quiet_world None []))).
    reflexivity.
  - apply (proj1 (proj2 (load_questions_contract
                           (quiet_world (Some sheet_no_answer) [])))
             sheet_no_answer); [reflexivity | reflexivity |].
    right. vm_compute. intros [H|[H|[]]]; discriminate H.
  - apply (proj1 (proj2 (proj2 (load_questions_contract
                                  (quiet_world (Some sheet_padded) []))))
             sheet_padded); [reflexivity | reflexivity | |].
    + vm_compute. left. reflexivity.
    + vm_compute. right. left. reflexivity.
  - apply (proj2 (proj2 (proj2 (load_questions_contract
                                  (reading_world sheet_numeric_header []))))
             sheet_numeric_header); [reflexivity | reflexivity |].
    apply Exists_cons_tl, Exists_cons_tl, Exists_cons_hd. reflexivity.
Defined.

(** C6, as stated, fails: headers that equal [Question] and [Answer] up
    to letter case after trimming are rejected with the schema error. *)
Lemma load_questions_other_case_rejected :
  Exists (fun c => str_lower (Unicode := ascii_tables) (strip c)
                   = str_lower (Unicode := ascii_tables) Question)
         (columns sheet_other_case)
  /\ Exists (fun c => str_lower (Unicode := ascii_tables) (strip c)
                      = str_lower (Unicode := ascii_tables) Answer)
            (columns sheet_other_case)
  /\ load_questions (quiet_world (Some sheet_other_case) (lit "Ada"))
     = raise (KeyError [lit "question"; lit "ANSWER"]).
Proof.
  split; [|split].
  - apply Exists_cons_hd. reflexivity.
  - apply Exists_cons_tl, Exists_cons_hd. reflexivity.
  - reflexivity.
Qed.

(** C6, amended. For a document all of whose headers are text, the
    required-column check ignores white space around a header and
    nothing else: when the document has a header that is
    [Question] with white space around it and one that is [Answer] with
    white space around it, loading succeeds; when no header is exactly
    [Question] after trimming, or none is exactly [Answer], loading
    fails with the schema error. *)
Theorem load_questions_header_match (w : World) (df : DataFrame) :
  path_exists w = true -> read_excel w = Gives (as_sheet df) ->
  (forall pre post pre' post',
     blank pre -> blank post -> blank pre' -> blank post' ->
     In (pre ++ Question ++ post) (columns df) ->
     In (pre' ++ Answer ++ post') (columns df) ->
     load_questions w = ret (rename strip df))
  /\
  ((forall c, In c (columns df) -> strip c <> Question) \/
   (forall c, In c (columns df) -> strip c <> Answer) ->
   load_questions w = raise (KeyError (map strip (columns df)))).
Proof.
  intros He Hr. rewrite (load_questions_read _ _ He Hr). split.
  - intros pre post pre' post' Bpre Bpost Bpre' Bpost' Hq Ha.
    assert (Hq' : has_column Question (rename strip df) = true).
    { apply has_column_In, in_map_iff.
      exists (pre ++ Question ++ post). split; [|exact Hq].
      apply strip_padded; try assumption; apply Question_solid. }
    assert (Ha' : has_column Answer (rename strip df) = true).
    { apply has_column_In, in_map_iff.
      exists (pre' ++ Answer ++ post'). split; [|exact Ha].
      apply strip_padded; try assumption; apply Answer_solid. }
    now rewrite Hq', Ha'.
  - intros [Hq|Ha].
    + assert (Hq' : has_column Question (rename strip df) = false).
      { apply has_column_not_In. intros Hin. apply in_map_iff in Hin.
        destruct Hin as (c & Hc & Hin). exact (Hq c Hin Hc). }
      now rewrite Hq'.
    + assert (Ha' : has_column Answer (rename strip df) = false).
      { apply has_column_not_In. intros Hin. apply in_map_iff in Hin.
        destruct Hin as (c & Hc & Hin). exact (Ha c Hin Hc). }
      rewrite Ha'. now rewrite andb_false_r.
Qed.

Lemma load_questions_header_match_witness :
  load_questions (quiet_world (Some sheet_padded) [])
  = ret (rename strip sheet_padded)
  /\ load_questions (quiet_world (Some sheet_other_case) [])
     = raise (KeyError (map strip (columns sheet_other_case))).
Proof.
  split.
  - apply (proj1 (load_questions_header_match
                    (quiet_world (Some sheet_padded) []) sheet_padded
                    eq_refl eq_refl)
             (lit " ") [] [] (lit "  "));
      try (repeat constructor); simpl; tauto.
  - apply (proj2 (load_questions_header_match
                    (quiet_world (Some sheet_other_case) []) sheet_other_case
                    eq_refl eq_refl)).
    left. intros c [<-|[<-|[]]]; vm_compute; discriminate.
Defined.

(* ================================================================== *)
(** * Transcription: the properties *)
(* ================================================================== *)

Lemma module_names_no_sr : bound module_names "sr" = false.
Proof. reflexivity. Qed.

(** C7, on the module as written. No statement of the module binds the
    name [sr], so every call of [transcribe_audio] stops at line 34 with
    a [NameError], whatever the audio and whatever the transcription
    service would have signalled; the handlers of lines 39-44 are never
    reached. *)
Theorem transcribe_audio_name_error
    (recognize : audio -> ext pystr) (audio_data : audio) :
  transcribe_audio module_names recognize audio_data
  = ([], Raise (NameError "sr")).
Proof. reflexivity. Qed.

(** What the handlers do once [sr] names the speech module: both
    conditions give the empty text and a console warning. *)
Lemma transcribe_audio_handlers names recognize audio_data :
  bound names "sr" = true ->
  (recognize audio_data = Throws UnknownValueError ->
   transcribe_audio names recognize audio_data
   = ([Print NotUnderstood], Return []))
  /\
  (recognize audio_data = Throws RequestError ->
   transcribe_audio names recognize audio_data
   = ([Print RequestFailed], Return []))
  /\
  (forall response_text, recognize audio_data = Gives response_text ->
   transcribe_audio names recognize audio_data
   = ([], Return (strip response_text))).
Proof.
  intros Hb. unfold transcribe_audio, resolve, clauses_reading.
  rewrite Hb, bind_ret.
  repeat split; intros; rewrite H; reflexivity.
Qed.

(* ================================================================== *)
(** * The session: the properties *)
(* ================================================================== *)

(** Assigning to a key keeps the keys of the mapping distinct, and the
    key then holds the value assigned. *)
Lemma setitem_keys key v (d : responses_dict) :
  NoDup (map fst d) -> NoDup (map fst (setitem key v d)).
Proof.
  induction d as [|[k x] d IH]; simpl; intros Hnd.
  - repeat constructor. intros [].
  - inversion Hnd as [|? ? Hk Hd]; subst.
    destruct (pystr_eqb k key) eqn:E; simpl; [now constructor|].
    constructor; [|now apply IH].
    intros Hin. apply Hk. apply in_map_iff in Hin.
    destruct Hin as ([k' x'] & Hk' & Hin). simpl in Hk'. subst k'.
    clear - Hin E. induction d as [|[k1 x1] d IH]; simpl in Hin.
    + destruct Hin as [[= <- _]|[]]. now rewrite pystr_eqb_refl in E.
    + destruct (pystr_eqb k1 key) eqn:E1.
      * apply pystr_eqb_eq in E1. subst k1.
        destruct Hin as [[= <- _]|Hin].
        -- now rewrite pystr_eqb_refl in E.
        -- right. apply in_map_iff. now exists (k, x').
      * destruct Hin as [[= <- _]|Hin]; [now left | right; now apply IH].
Qed.

Lemma setitem_In key v (d : responses_dict) : In (key, v) (setitem key v d).
Proof.
  induction d as [|[k x] d IH]; simpl; [now left|].
  destruct (pystr_eqb k key) eqn:E.
  - apply pystr_eqb_eq in E. subst. now left.
  - now right.
Qed.

Lemma fold_left_add (l : list Z) (a : Z) :
  fold_left Z.add l a = a + sum_of l.
Proof.
  revert a. induction l as [|x l IH]; intros a; simpl; [lia|].
  rewrite IH. lia.
Qed.

Lemma total_sum (responses : responses_dict) :
  total responses = sum_of (scores responses).
Proof.
  unfold total, values, scores. rewrite fold_left_add, map_map. reflexivity.
Qed.

Lemma db_call_cases (failure : option exn) (e : event) :
  (failure = None /\ db_call failure e = emit e)
  \/ (exists x, failure = Some x /\ db_call failure e = raise x).
Proof. destruct failure as [x|]; [right; now exists x | now left]. Qed.

Lemma only_sql_insert_all db candidate_name responses : forall n,
  only is_sql (insert_all db candidate_name n responses).
Proof.
  induction responses as [|[q [r s]] rest IH]; intros n; simpl.
  - constructor.
  - apply only_bind; [|intros _ _; apply IH].
    destruct (execute db n); repeat constructor.
Qed.

(** Whatever the database does, [save_results] produces database
    events only. *)
Lemma only_sql_save_results db candidate_name responses :
  only is_sql (save_results db candidate_name responses).
Proof.
  unfold save_results.
  apply only_bind; [destruct (connect db); repeat constructor | intros _ _].
  apply only_bind; [destruct (execute db 0); repeat constructor | intros _ _].
  apply only_bind; [apply only_sql_insert_all | intros _ _].
  apply only_bind; [destruct (commit db); repeat constructor | intros _ _].
  destruct (close db); repeat constructor.
Qed.

Lemma insert_all_returns db candidate_name responses : forall n,
  outcome (insert_all db candidate_name n responses) = Return tt ->
  insert_all db candidate_name n responses
  = (map (stored candidate_name) responses, Return tt).
Proof.
  induction responses as [|[q [r s]] rest IH]; intros n H; simpl in *.
  - reflexivity.
  - destruct (execute db n); cbn [db_call] in *; [discriminate H|].
    rewrite bind_emit in *. cbn [outcome snd] in H.
    now rewrite (IH _ H).
Qed.

(** When no call into the database raises, [save_results] opens it,
    creates the table, inserts one row per entry, in order, commits and
    closes. *)
Lemma save_results_rows db candidate_name responses :
  outcome (save_results db candidate_name responses) = Return tt ->
  save_results db candidate_name responses
  = ([SqlConnect; SqlCreateTable] ++ map (stored candidate_name) responses
     ++ [SqlCommit; SqlClose], Return tt).
Proof.
  unfold save_results. intros H.
  destruct (connect db); cbn [db_call] in *; [discriminate H|].
  rewrite bind_emit in *. cbn [outcome snd] in H.
  destruct (execute db 0); cbn [db_call] in *; [discriminate H|].
  rewrite bind_emit in *. cbn [outcome snd] in H.
  rewrite outcome_bind in H.
  destruct (outcome (insert_all db candidate_name 1 responses)) as [[]|e] eqn:Hi;
    [|discriminate H].
  rewrite (insert_all_returns _ _ _ _ Hi) in *. cbn [outcome snd] in H.
  destruct (commit db); cbn [db_call] in *; [discriminate H|].
  destruct (close db); cbn [db_call] in *; [discriminate H|].
  unfold bind, emit. simpl. reflexivity.
Qed.

Lemma insert_all_reliable db candidate_name responses :
  (forall n, execute db n = None) ->
  forall n, outcome (insert_all db candidate_name n responses) = Return tt.
Proof.
  intros He. induction responses as [|[q [r s]] rest IH]; intros n; simpl.
  - reflexivity.
  - rewrite He. cbn [db_call]. rewrite bind_emit. cbn [outcome snd]. apply IH.
Qed.

(** A database none of whose calls fails stores the mapping. *)
Lemma save_results_reliable db candidate_name responses :
  reliable db ->
  outcome (save_results db candidate_name responses) = Return tt.
Proof.
  intros (Hc & He & Hm & Hl). unfold save_results.
  rewrite Hc, He, Hm, Hl. cbn [db_call].
  rewrite !bind_emit. cbn [outcome snd]. rewrite outcome_bind.
  now rewrite (insert_all_reliable db candidate_name responses He 1).
Qed.

Section SessionFacts.
Context {U : Unicode}.
Variable names : list string.
Variable w : World.

Lemma all_loop_score_response reply user_answer correct_answer use_ai :
  all_loop (trace (score_response reply user_answer correct_answer use_ai)).
Proof.
  unfold score_response. destruct use_ai.
  - apply all_loop_bind; [now apply all_loop_emit | intros _ _].
    apply all_loop_bind; [apply all_loop_nil, trace_call | intros response _].
    destruct (status_code response =? 200).
    + apply all_loop_bind.
      { apply all_loop_nil. unfold response_json.
        now destruct (json response). }
      intros result _.
      apply all_loop_bind; [apply all_loop_nil, silent_completion|].
      intros score_text _. destruct (PyInt.int score_text).
      * apply all_loop_nil. reflexivity.
      * unfold print_. destruct (encodable _); repeat constructor.
    + unfold print_. destruct (encodable _); repeat constructor.
  - apply all_loop_nil. now destruct correct_answer.
Qed.

Lemma all_loop_transcribe_audio recognize audio_data :
  all_loop (trace (transcribe_audio names recognize audio_data)).
Proof.
  unfold transcribe_audio.
  apply all_loop_bind; [apply all_loop_nil, trace_resolve | intros _ _].
  apply all_loop_try_except.
  - apply all_loop_bind; [apply all_loop_nil, trace_call | intros ? _].
    now apply all_loop_nil.
  - intros e h. unfold clauses_reading.
    destruct (bound names "sr"); [|intros [= <-]; constructor].
    destruct e; intros [= <-]; repeat constructor.
Qed.

Lemma all_loop_capture t : all_loop (trace (capture names w t)).
Proof.
  unfold capture.
  apply all_loop_bind; [now apply all_loop_emit | intros _ _].
  apply all_loop_try_except.
  - apply all_loop_bind; [apply all_loop_nil, trace_call | intros ? _].
    apply all_loop_bind; [now apply all_loop_emit | intros _ _].
    apply all_loop_bind; [apply all_loop_transcribe_audio | intros r _].
    destruct (truthy r); repeat constructor.
  - intros e h. unfold clauses_reading.
    destruct (bound names "sr"); [|intros [= <-]; constructor].
    destruct e; simpl; intros [= <-]; repeat constructor.
Qed.

Lemma all_loop_ask cols k idx row responses :
  all_loop (trace (ask names w cols k idx row responses)).
Proof.
  unfold ask.
  apply all_loop_bind; [apply all_loop_nil, trace_row_get | intros ? _].
  apply all_loop_bind; [now apply all_loop_emit | intros _ _].
  apply all_loop_bind; [apply all_loop_nil, trace_resolve | intros _ _].
  apply all_loop_bind; [apply all_loop_nil, trace_call | intros _ _].
  apply all_loop_bind; [now apply all_loop_emit | intros _ _].
  apply all_loop_bind.
  { rewrite trace_finally. apply Forall_app. split.
    - apply all_loop_capture.
    - repeat constructor. }
  intros response_text _.
  apply all_loop_bind; [apply all_loop_nil, trace_row_get | intros ? _].
  apply all_loop_bind; [apply all_loop_score_response | intros score _].
  apply all_loop_bind; [apply all_loop_nil, trace_row_get | intros ? _].
  apply all_loop_bind; [apply all_loop_nil, trace_as_key | intros key _].
  repeat constructor.
Qed.

Lemma all_loop_question_loop cols its : forall k responses,
  all_loop (trace (question_loop names w cols k its responses)).
Proof.
  induction its as [|[idx row] rest IH]; intros k responses; simpl.
  - constructor.
  - apply all_loop_bind; [apply all_loop_ask | intros ? _; apply IH].
Qed.

(** The report when the store does not fail. *)
Lemma report_events candidate_name questions_df responses :
  outcome (save_results (store w) candidate_name responses) = Return tt ->
  report w candidate_name questions_df responses
  = ([SqlConnect; SqlCreateTable] ++ map (stored candidate_name) responses
     ++ [SqlCommit; SqlClose;
         StSuccess (total responses) (len questions_df * 10);
         StWrite TranscriptHeader]
     ++ map transcript_line responses, Return tt).
Proof.
  intros H. unfold report. rewrite (save_results_rows _ _ _ H).
  rewrite (for_each_emit _ transcript_line) by (now intros [q [r s]]).
  unfold bind, emit. simpl. rewrite <- !app_assoc. reflexivity.
Qed.

(** The report when the store fails: the exception of the store, after
    database events only. *)
Lemma report_fails candidate_name questions_df responses e :
  outcome (save_results (store w) candidate_name responses) = Raise e ->
  report w candidate_name questions_df responses
  = (trace (save_results (store w) candidate_name responses), Raise e).
Proof.
  intros H. unfold report.
  destruct (save_results (store w) candidate_name responses) as [t [[]|x]];
    cbn [outcome snd trace fst] in *; [discriminate H|].
  injection H as ->. reflexivity.
Qed.

(** The report ends as its store ends. *)
Lemma report_outcome candidate_name questions_df responses :
  outcome (report w candidate_name questions_df responses)
  = outcome (save_results (store w) candidate_name responses).
Proof.
  destruct (outcome (save_results (store w) candidate_name responses))
    as [[]|e] eqn:H.
  - now rewrite (report_events _ questions_df _ H).
  - now rewrite (report_fails _ questions_df _ _ H).
Qed.

(** The run, by what the loader, the name field and the loop do. *)
Lemma main_unfold :
  main names w =
  match outcome (load_questions w) with
  | Raise e => ([StTitle], Raise e)
  | Return questions_df =>
      if truthy (text_input w) then
        let loop := question_loop names w (columns questions_df) 0
                      (iterrows questions_df) [] in
        match outcome loop with
        | Raise e => (StTitle :: StTextInput :: trace loop, Raise e)
        | Return responses =>
            (StTitle :: StTextInput :: trace loop
               ++ trace (report w (text_input w) questions_df responses),
             outcome (report w (text_input w) questions_df responses))
        end
      else ([StTitle; StTextInput], Return tt)
  end.
Proof.
  unfold main. rewrite bind_emit.
  pose proof (trace_load_questions w) as Ht.
  destruct (load_questions w) as [t [df|e]]; simpl in Ht; subst t;
    [|reflexivity].
  change (@pair (list event) (result DataFrame) [] (Return df)) with (ret df).
  rewrite bind_ret, bind_emit. cbn [outcome snd ret].
  destruct (truthy (text_input w)); [|reflexivity].
  cbv zeta.
  destruct (question_loop names w (columns df) 0 (iterrows df) [])
    as [t [responses|e]]; [|reflexivity].
  cbn [outcome trace fst snd bind].
  now destruct (report w (text_input w) df responses).
Qed.

(** No aggregate is displayed inside the loop. *)
Lemma loop_shows_no_aggregate cols k its responses total_score maximum :
  ~ In (StSuccess total_score maximum)
       (trace (question_loop names w cols k its responses)).
Proof.
  intros Hin.
  pose proof (all_loop_question_loop cols its k responses) as Hall.
  unfold all_loop in Hall. rewrite Forall_forall in Hall.
  specialize (Hall _ Hin). discriminate Hall.
Qed.

(** C8. When the run displays its aggregate, the total shown is the sum
    of the scores held in the response mapping the loop has built, and
    the maximum shown is 10 times the number of rows of the loaded
    sheet.  Whenever the sheet loads, a name is given and the loop ends
    normally, the run stores the mapping and then, when the database has
    taken the rows, displays that aggregate and ends normally; when a
    call into the database raises, the run ends with that exception and
    displays no aggregate. *)
Theorem main_final_score :
  (forall total_score maximum,
     In (StSuccess total_score maximum) (trace (main names w)) ->
     exists questions_df responses,
       load_questions w = ret questions_df
       /\ outcome (question_loop names w (columns questions_df) 0
                     (iterrows questions_df) []) = Return responses
       /\ total_score = sum_of (scores responses)
       /\ maximum = 10 * Z.of_nat (List.length (rows questions_df)))
  /\
  (forall questions_df responses,
     load_questions w = ret questions_df ->
     text_input w <> [] ->
     outcome (question_loop names w (columns questions_df) 0
                (iterrows questions_df) []) = Return responses ->
     (outcome (save_results (store w) (text_input w) responses) = Return tt ->
      outcome (main names w) = Return tt
      /\ In (StSuccess (sum_of (scores responses))
                       (10 * Z.of_nat (List.length (rows questions_df))))
            (trace (main names w)))
     /\
     (forall e,
        outcome (save_results (store w) (text_input w) responses) = Raise e ->
        outcome (main names w) = Raise e
        /\ forall total_score maximum,
             ~ In (StSuccess total_score maximum) (trace (main names w)))).
Proof.
  split.
  - intros total_score maximum Hin. rewrite main_unfold in Hin.
    pose proof (trace_load_questions w) as Ht.
    destruct (load_questions w) as [t [df|e]] eqn:Hload;
      simpl in Ht; subst t; cbn [outcome snd] in Hin.
    2: { simpl in Hin. destruct Hin as [H|[]]. discriminate H. }
    destruct (truthy (text_input w)).
    2: { simpl in Hin. destruct Hin as [H|[H|[]]]; discriminate H. }
    cbv zeta in Hin.
    destruct (outcome (question_loop names w (columns df) 0 (iterrows df) []))
      as [responses|e] eqn:Hloop; cbn [trace fst] in Hin.
    + exists df, responses. split; [reflexivity|]. split; [exact Hloop|].
      destruct Hin as [H|[H|Hin]]; try discriminate H.
      apply in_app_or in Hin. destruct Hin as [Hin|Hin].
      { exfalso. exact (loop_shows_no_aggregate _ _ _ _ _ _ Hin). }
      destruct (outcome (save_results (store w) (text_input w) responses))
        as [[]|e] eqn:Hsave.
      * rewrite (report_events _ _ _ Hsave) in Hin. cbn [trace fst] in Hin.
        repeat (apply in_app_or in Hin; destruct Hin as [Hin|Hin]).
        -- simpl in Hin. destruct Hin as [H|[H|[]]]; discriminate H.
        -- apply in_map_iff in Hin. destruct Hin as (x & H & _). discriminate H.
        -- simpl in Hin.
           destruct Hin as [H|[H|[H|[H|[]]]]]; try discriminate H.
           injection H as <- <-. split; [apply total_sum|].
           unfold len. lia.
        -- apply in_map_iff in Hin. destruct Hin as (x & H & _). discriminate H.
      * exfalso. rewrite (report_fails _ _ _ _ Hsave) in Hin.
        cbn [trace fst] in Hin.
        pose proof (only_sql_save_results (store w) (text_input w) responses)
          as Hsql.
        unfold only in Hsql. rewrite Forall_forall in Hsql.
        specialize (Hsql _ Hin). discriminate Hsql.
    + destruct Hin as [H|[H|Hin]]; try discriminate H.
      exfalso. exact (loop_shows_no_aggregate _ _ _ _ _ _ Hin).
  - intros df responses Hload Hname Hloop. rewrite main_unfold, Hload.
    cbn [outcome snd ret].
    destruct (text_input w) as [|c name]; [congruence|]. cbn [truthy].
    cbv zeta. rewrite Hloop. split.
    + intros Hsave. rewrite (report_events _ _ _ Hsave).
      split; [reflexivity|]. cbn [trace fst].
      right. right. apply in_or_app. right.
      apply in_or_app. right. apply in_or_app. right.
      apply in_or_app. left. rewrite total_sum. unfold len.
      replace (Z.of_nat (List.length (rows df)) * 10)
        with (10 * Z.of_nat (List.length (rows df))) by lia.
      simpl. tauto.
    + intros e Hsave. rewrite (report_fails _ _ _ _ Hsave).
      split; [reflexivity|]. cbn [trace fst outcome snd].
      intros total_score maximum [H|[H|Hin]]; try discriminate H.
      apply in_app_or in Hin. destruct Hin as [Hin|Hin].
      * exact (loop_shows_no_aggregate _ _ _ _ _ _ Hin).
      * pose proof (only_sql_save_results (store w) (c :: name) responses)
          as Hsql.
        unfold only in Hsql. rewrite Forall_forall in Hsql.
        specialize (Hsql _ Hin). discriminate Hsql.
Qed.

(** C9. A run in which the name field is empty shows the title and the
    field and nothing else: no question, no capture, no scoring, no
    record, no stored row, no aggregate.  So every event of the session
    proper in a run comes with a non-empty name. *)
Theorem main_entry_guard :
  (text_input w = [] ->
   Forall (fun e => session_event e = false) (trace (main names w)))
  /\
  (forall e, In e (trace (main names w)) -> session_event e = true ->
             text_input w <> []).
Proof.
  assert (Hempty : text_input w = [] ->
            Forall (fun e => session_event e = false) (trace (main names w))).
  { intros Hname. rewrite main_unfold, Hname.
    destruct (outcome (load_questions w)); repeat constructor. }
  split; [exact Hempty|].
  intros e Hin He Hname. specialize (Hempty Hname).
  rewrite Forall_forall in Hempty. specialize (Hempty e Hin). congruence.
Qed.

End SessionFacts.

Section ContinueFacts.
Context {U : Unicode}.
Variable names : list string.
Variable w : World.
Hypothesis sr_bound : bound names "sr" = true.

(** With [sr] bound, whatever goes wrong while listening or
    transcribing is caught in the loop body: only an interrupt, which is
    not an [Exception], leaves it. *)
Lemma capture_catches t e :
  outcome (capture names w t) = Raise e -> is_Exception e = false.
Proof.
  unfold capture. rewrite outcome_bind. cbn [outcome emit snd].
  rewrite outcome_try_except. unfold clauses_reading. rewrite sr_bound.
  match goal with |- context [outcome ?m] => destruct (outcome m) as [r|e'] end;
    [discriminate|].
  destruct e'; simpl; try discriminate. now intros [= <-].
Qed.

(** With [sr] bound, a question whose scoring request comes back under a
    status other than 200, with a body the console can write, is
    recorded with score 0, and the pass ends normally. *)
Lemma ask_after_failed_request cols k idx row responses
      question correct_answer response_text response :
  cells_at Question cols row = [question] ->
  cells_at Answer cols row = [correct_answer] ->
  microphone (turn w k) = Gives tt ->
  outcome (capture names w (turn w k)) = Return response_text ->
  post (turn w k) = Gives response ->
  status_code response <> 200 ->
  encodable (text response) = true ->
  outcome (ask names w cols k idx row responses)
  = Return (setitem question (response_text, 0) responses).
Proof.
  intros Hq Ha Hmic Hcap Hpost Hstatus Hbody. unfold ask, row_get, resolve.
  rewrite Hq, sr_bound, Hmic. cbn [call].
  rewrite bind_ret, bind_emit, !bind_ret, bind_emit. cbn [outcome snd].
  rewrite outcome_bind, outcome_finally, Hcap.
  rewrite Ha, bind_ret, Hpost.
  apply Z.eqb_neq in Hstatus.
  rewrite (score_response_else_branch _ _ _ Hstatus), Hbody.
  reflexivity.
Qed.

(** X18. With [sr] bound, a scoring request that fails in transport
    does not stop the loop: when the request of a row comes back under
    a status other than 200, with a body the console can write, the
    row is recorded with score 0 and the loop goes on with the rows
    that remain. *)
Theorem question_loop_after_transport_failure cols k idx row rest responses
      question correct_answer response_text response :
  cells_at Question cols row = [question] ->
  cells_at Answer cols row = [correct_answer] ->
  microphone (turn w k) = Gives tt ->
  outcome (capture names w (turn w k)) = Return response_text ->
  post (turn w k) = Gives response ->
  status_code response <> 200 ->
  encodable (text response) = true ->
  outcome (question_loop names w cols k ((idx, row) :: rest) responses)
  = outcome (question_loop names w cols (S k) rest
               (setitem question (response_text, 0) responses)).
Proof.
  intros Hq Ha Hmic Hcap Hpost Hstatus Hbody. simpl question_loop.
  rewrite outcome_bind.
  now rewrite (ask_after_failed_request _ _ _ _ _ _ _ _ _
                 Hq Ha Hmic Hcap Hpost Hstatus Hbody).
Qed.

End ContinueFacts.

(** C4. With the model enabled and a response whose status code is not
    200 (so for every non-success code): when the body text holds no
    surrogate code point, the status and the body are printed as a
    warning and 0 is returned; with [sr] bound the pass of the loop then
    records 0 and ends normally, and the loop goes on with the rows that
    remain, so the session continues.  But when the body text holds a
    surrogate code point, the print of line 81 raises
    [UnicodeEncodeError] and the exception reaches the caller. *)
Theorem score_response_transport_failure {U : Unicode}
    user_answer correct_answer response :
  status_code response <> 200 ->
  (encodable (text response) = true ->
   score_response (Gives response) user_answer correct_answer true
   = ([Post user_answer correct_answer;
       Print (ApiError (status_code response) (text response))],
      Return 0))
  /\
  (encodable (text response) = false ->
   score_response (Gives response) user_answer correct_answer true
   = ([Post user_answer correct_answer], Raise UnicodeEncodeError))
  /\
  (forall names w cols k idx row rest responses
          question reference response_text,
     bound names "sr" = true ->
     cells_at Question cols row = [question] ->
     cells_at Answer cols row = [reference] ->
     microphone (turn w k) = Gives tt ->
     outcome (capture names w (turn w k)) = Return response_text ->
     post (turn w k) = Gives response ->
     encodable (text response) = true ->
     outcome (ask names w cols k idx row responses)
     = Return (setitem question (response_text, 0) responses)
     /\ outcome (question_loop names w cols k ((idx, row) :: rest) responses)
        = outcome (question_loop names w cols (S k) rest
                     (setitem question (response_text, 0) responses))).
Proof.
  intros Hs. split; [|split].
  - intros Hb. apply Z.eqb_neq in Hs.
    now rewrite (score_response_else_branch _ _ _ Hs), Hb.
  - intros Hb. apply Z.eqb_neq in Hs.
    now rewrite (score_response_else_branch _ _ _ Hs), Hb.
  - intros names w cols k idx row rest responses question reference
           response_text Hsr Hq Ha Hmic Hcap Hpost Hb.
    pose proof (ask_after_failed_request names w Hsr cols k idx row responses
                  question reference response_text response
                  Hq Ha Hmic Hcap Hpost Hs Hb) as Hask.
    split; [exact Hask|].
    simpl question_loop. rewrite outcome_bind. now rewrite Hask.
Qed.

(* ================================================================== *)
(** * Whole runs *)
(* ================================================================== *)

(** The module as written, on the two-row sheet: the first question is
    shown, then line 108 reads [sr]. *)
Example main_as_written_stops_at_first_question :
  main (U := ascii_tables) module_names speaking_world
  = ([StTitle; StTextInput;
      StSubheader 1 (Scalar (lit "What is 2+2?"))],
     Raise (NameError "sr")).
Proof. reflexivity. Qed.

(** The same run with the alias bound: scores 10 and 0, two stored rows,
    total 10 out of 20. *)
Example main_with_alias_two_rows :
  main (U := ascii_tables) names_with_alias speaking_world
  = ([StTitle; StTextInput;
      StSubheader 1 (Scalar (lit "What is 2+2?"));
      MicOpen; StWrite Listening; StWrite Processing;
      StWrite (Transcribed (lit "4")); MicClose;
      Post (lit "4") (Scalar (lit "4"));
      StWrite (Score 10); Sleep;
      StSubheader 2 (Scalar (lit "Capital of France?"));
      MicOpen; StWrite Listening; StWrite Processing;
      StWrite (Transcribed (lit "London")); MicClose;
      Post (lit "London") (Scalar (lit "Paris"));
      StWrite (Score 0); Sleep;
      SqlConnect; SqlCreateTable;
      SqlInsert (lit "Ada") (lit "What is 2+2?") (lit "4") 10;
      SqlInsert (lit "Ada") (lit "Capital of France?") (lit "London") 0;
      SqlCommit; SqlClose;
      StSuccess 10 20; StWrite TranscriptHeader;
      StWrite (TranscriptLine (lit "What is 2+2?") (lit "4") 10);
      StWrite (TranscriptLine (lit "Capital of France?") (lit "London") 0)],
     Return tt).
Proof. reflexivity. Qed.

(** A run with an empty name, in full. *)
Example main_without_name :
  main (U := ascii_tables) names_with_alias
       (quiet_world (Some sheet_padded) [])
  = ([StTitle; StTextInput], Return tt).
Proof. reflexivity. Qed.

(** A run whose database is locked at the second row: both questions are
    asked, the first row is inserted, and the exception of the second
    insert ends the run before anything is committed or shown. *)
Example main_locked_database :
  outcome (main (U := ascii_tables) names_with_alias locked_world)
  = Raise OperationalError
  /\ filter is_sql
       (trace (main (U := ascii_tables) names_with_alias locked_world))
     = [SqlConnect; SqlCreateTable;
        SqlInsert (lit "Ada") (lit "What is 2+2?") [] 3]
  /\ count is_aggregate
       (trace (main (U := ascii_tables) names_with_alias locked_world))
     = 0%nat.
Proof. vm_compute. repeat split. Qed.

(** A sheet with a header cell that holds a number. *)
Example load_numeric_header_raises :
  load_questions (reading_world sheet_numeric_header (lit "Ada"))
  = ([], Raise AttributeError).
Proof. reflexivity. Qed.

Lemma main_final_score_witness :
  (outcome (main (U := ascii_tables) names_with_alias speaking_world)
   = Return tt
   /\ In (StSuccess 10 20)
         (trace (main (U := ascii_tables) names_with_alias speaking_world)))
  /\
  (exists questions_df responses,
     load_questions (quiet_world (Some empty_sheet) (lit "Ada"))
     = ret questions_df
     /\ outcome (question_loop (U := ascii_tables) module_names
                   (quiet_world (Some empty_sheet) (lit "Ada"))
                   (columns questions_df) 0 (iterrows questions_df) [])
        = Return responses
     /\ 0 = sum_of (scores responses)
     /\ 0 = 10 * Z.of_nat (List.length (rows questions_df)))
  /\
  (outcome (main (U := ascii_tables) names_with_alias locked_world)
   = Raise OperationalError
   /\ forall total_score maximum,
        ~ In (StSuccess total_score maximum)
             (trace (main (U := ascii_tables) names_with_alias locked_world))).
Proof.
  split; [|split].
  - apply (proj1 (proj2 (main_final_score (U := ascii_tables)
                           names_with_alias speaking_world)
                    (rename strip sheet_padded) speaking_responses
                    eq_refl ltac:(simpl; discriminate) eq_refl)).
    reflexivity.
  - apply (proj1 (main_final_score (U := ascii_tables) module_names
                    (quiet_world (Some empty_sheet) (lit "Ada")))).
    vm_compute. tauto.
  - apply (proj2 (proj2 (main_final_score (U := ascii_tables)
                           names_with_alias locked_world)
                    (rename strip sheet_padded)
                    [(lit "What is 2+2?", ([], 3));
                     (lit "Capital of France?", ([], 3))]
                    eq_refl ltac:(simpl; discriminate) eq_refl)).
    reflexivity.
Defined.

Lemma main_entry_guard_witness :
  Forall (fun e => session_event e = false)
         (trace (main (U := ascii_tables) module_names
                   (quiet_world (Some sheet_padded) [])))
  /\ text_input speaking_world <> [].
Proof.
  split.
  - apply (proj1 (main_entry_guard (U := ascii_tables) module_names
                    (quiet_world (Some sheet_padded) []))).
    reflexivity.
  - apply (proj2 (main_entry_guard (U := ascii_tables) module_names
                    speaking_world)
             (StSubheader 1 (Scalar (lit "What is 2+2?")))).
    + vm_compute. tauto.
    + reflexivity.
Defined.

Lemma score_response_transport_failure_witness :
  score_response (U := ascii_tables)
    (Gives {| status_code := 503; text := lit "Service Unavailable";
              json := None |})
    (lit "four") (Scalar (lit "4")) true
  = ([Post (lit "four") (Scalar (lit "4"));
      Print (ApiError 503 (lit "Service Unavailable"))], Return 0)
  /\
  score_response (U := ascii_tables)
    (Gives {| status_code := 503; text := lone_surrogate; json := None |})
    (lit "four") (Scalar (lit "4")) true
  = ([Post (lit "four") (Scalar (lit "4"))], Raise UnicodeEncodeError)
  /\
  (outcome (ask (U := ascii_tables) names_with_alias outage_world
              [Question; Answer] 0 0 [lit "What is 2+2?"; lit "4"] [])
   = Return (setitem (lit "What is 2+2?") ([], 0) [])
   /\ outcome (question_loop (U := ascii_tables) names_with_alias outage_world
                 [Question; Answer] 0
                 [(0, [lit "What is 2+2?"; lit "4"]);
                  (1, [lit "Capital of France?"; lit "Paris"])] [])
      = outcome (question_loop (U := ascii_tables) names_with_alias
                   outage_world [Question; Answer] 1
                   [(1, [lit "Capital of France?"; lit "Paris"])]
                   (setitem (lit "What is 2+2?") ([], 0) []))).
Proof.
  split; [|split].
  - apply (proj1 (score_response_transport_failure (U := ascii_tables)
                    (lit "four") (Scalar (lit "4"))
                    {| status_code := 503; text := lit "Service Unavailable";
                       json := None |}
                    ltac:(simpl; discriminate))).
    reflexivity.
  - apply (proj1 (proj2 (score_response_transport_failure (U := ascii_tables)
                           (lit "four") (Scalar (lit "4"))
                           {| status_code := 503; text := lone_surrogate;
                              json := None |}
                           ltac:(simpl; discriminate)))).
    reflexivity.
  - apply (proj2 (proj2 (score_response_transport_failure (U := ascii_tables)
                           [] (Scalar (lit "4"))
                           {| status_code := 503;
                              text := lit "Service Unavailable";
                              json := None |}
                           ltac:(simpl; discriminate)))
             names_with_alias outage_world
             [Question; Answer] 0%nat 0 [lit "What is 2+2?"; lit "4"]
             [(1, [lit "Capital of France?"; lit "Paris"])] []
             (lit "What is 2+2?") (lit "4") []);
      reflexivity.
Defined.

(* ================================================================== *)
(** * Scoring: further properties *)
(* ================================================================== *)



Section ScoringMore.
Context {U : Unicode}.

(** The trace of the model branch: the request, then at most one
    printed warning. *)
Lemma score_response_model_trace reply user_answer correct_answer :
  exists warnings,
    trace (score_response reply user_answer correct_answer true)
    = Post user_answer correct_answer :: warnings
    /\ Forall (fun e => is_print e = true) warnings
    /\ (List.length warnings <= 1)%nat.
Proof.
  assert (Hprint : forall (m : message) (k : M Z),
            trace k = [] ->
            exists warnings,
              trace (print_ m ;;; k) = warnings
              /\ Forall (fun e => is_print e = true) warnings
              /\ (List.length warnings <= 1)%nat).
  { intros m k Hk. unfold print_. destruct (encodable (quoted m)).
    - rewrite bind_emit. cbn [trace fst]. rewrite Hk.
      exists [Print m]. repeat split; [repeat constructor | simpl; lia].
    - exists []. repeat split; [constructor | simpl; lia]. }
  unfold score_response. rewrite bind_emit. cbn [trace fst].
  destruct reply as [response|e]; cbn [call].
  2: { exists []. repeat split; [constructor | simpl; lia]. }
  rewrite bind_ret. destruct (status_code response =? 200).
  - rewrite trace_bind.
    assert (Hj : trace (response_json response) = []).
    { unfold response_json. now destruct (json response). }
    rewrite Hj. cbn [app].
    destruct (outcome (response_json response)) as [result|e].
    2: { exists []. repeat split; [constructor | simpl; lia]. }
    rewrite trace_bind, (silent_completion result). cbn [app].
    destruct (outcome (completion result)) as [score_text|e].
    2: { exists []. repeat split; [constructor | simpl; lia]. }
    destruct (PyInt.int score_text).
    + exists []. repeat split; [constructor | simpl; lia].
    + destruct (Hprint (UnexpectedReply score_text) (ret 0) eq_refl)
        as (warnings & -> & Hp & Hl).
      now exists warnings.
  - destruct (Hprint (ApiError (status_code response) (text response))
                     (ret 0) eq_refl) as (warnings & -> & Hp & Hl).
    now exists warnings.
Qed.

(** X1. With the model enabled, every call issues exactly one request,
    carrying the two answers, whatever comes back: there is no retry,
    and nothing is shown on the page; at most one warning is printed.
    With the model disabled no request is issued and nothing is
    printed. *)
Theorem score_response_single_request reply user_answer correct_answer :
  (exists warnings,
     trace (score_response reply user_answer correct_answer true)
     = Post user_answer correct_answer :: warnings
     /\ Forall (fun e => is_print e = true) warnings
     /\ (List.length warnings <= 1)%nat
     /\ count is_post
          (trace (score_response reply user_answer correct_answer true)) = 1%nat)
  /\ trace (score_response reply user_answer correct_answer false) = [].
Proof.
  split.
  - destruct (score_response_model_trace reply user_answer correct_answer)
      as (warnings & Ht & Hp & Hl).
    exists warnings. repeat split; try assumption.
    rewrite Ht. unfold count. simpl. f_equal.
    clear - Hp. induction Hp as [|e l He _ IH]; [reflexivity|].
    simpl. destruct e; try discriminate He. exact IH.
  - unfold score_response. now destruct correct_answer.
Qed.



(** X3. With the model disabled, "scores 10" is an equivalence on answers
    (reflexive and transitive; it is symmetric by C10), and every score
    is 10 or 0. *)
Theorem score_response_plain_equivalence reply (a b c : pystr) :
  score_response reply a (Scalar a) false = ret 10
  /\ (score_response reply a (Scalar b) false = ret 10 ->
      score_response reply b (Scalar c) false = ret 10 ->
      score_response reply a (Scalar c) false = ret 10)
  /\ (score_response reply a (Scalar b) false = ret 10
      \/ score_response reply a (Scalar b) false = ret 0).
Proof.
  unfold score_response. split; [|split].
  - now rewrite pystr_eqb_refl.
  - destruct (pystr_eqb (strip (str_lower a)) (strip (str_lower b))) eqn:Hab;
      [|discriminate].
    destruct (pystr_eqb (strip (str_lower b)) (strip (str_lower c))) eqn:Hbc;
      [|discriminate].
    apply pystr_eqb_eq in Hab, Hbc. rewrite Hab, Hbc.
    now rewrite pystr_eqb_refl.
  - destruct (pystr_eqb _ _); [now left | now right].
Qed.

End ScoringMore.

(* ================================================================== *)
(** * The question loader: further properties *)
(* ================================================================== *)

Lemma rename_strip_fixed (df : DataFrame) :
  rename strip (rename strip df) = rename strip df.
Proof.
  unfold rename. simpl. f_equal. rewrite map_map.
  apply map_ext. intros c. apply strip_idempotent.
Qed.

(** A document read has text in all its header cells, or has a header
    cell that is not text. *)
Lemma sheet_cases (sheet : Sheet) :
  (exists df : DataFrame, sheet = as_sheet df)
  \/ Exists (fun l => is_text l = false) (columns sheet).
Proof.
  destruct (strip_labels (columns sheet)) as [names|] eqn:H.
  - left. apply strip_labels_some in H. destruct H as (texts & Hl & _).
    exists {| columns := texts; rows := rows sheet |}.
    destruct sheet as [labels rs]. simpl in *. now subst.
  - right. now apply strip_labels_none.
Qed.

(** The loader returns only after a successful read of a document whose
    header cells all hold text, and what it returns is the frame read
    under trimmed names, with both columns present. *)
Lemma load_questions_returns w questions_df :
  load_questions w = ret questions_df ->
  path_exists w = true
  /\ exists df : DataFrame,
       read_excel w = Gives (as_sheet df) /\ questions_df = rename strip df
       /\ has_column Question questions_df = true
       /\ has_column Answer questions_df = true.
Proof.
  unfold load_questions.
  destruct (path_exists w); cbn [negb]; [|discriminate].
  destruct (read_excel w) as [sheet|e]; cbn [call]; [|discriminate].
  rewrite bind_ret.
  destruct (sheet_cases sheet) as [(df & ->)|Hn].
  2: { rewrite (rename_strip_nontext _ Hn). discriminate. }
  rewrite rename_strip_text, bind_ret.
  destruct (has_column Question (rename strip df)) eqn:Hq;
    destruct (has_column Answer (rename strip df)) eqn:Ha;
    cbn [negb orb]; try discriminate.
  intros [= <-]. split; [reflexivity|]. exists df. auto.
Qed.

(** X4. Whenever the loader returns a frame, the frame has a column named
    exactly [Question] and one named exactly [Answer], none of its
    column names has white space at either end, and it has the rows and
    the number of columns of the document read. *)
Theorem load_questions_postcondition w questions_df :
  load_questions w = ret questions_df ->
  In Question (columns questions_df)
  /\ In Answer (columns questions_df)
  /\ Forall (fun c => strip c = c) (columns questions_df)
  /\ exists df,
       read_excel w = Gives df
       /\ rows questions_df = rows df
       /\ List.length (columns questions_df) = List.length (columns df).
Proof.
  intros H. apply load_questions_returns in H.
  destruct H as (_ & df & Hr & -> & Hq & Ha).
  split; [now apply has_column_In|]. split; [now apply has_column_In|].
  split.
  - simpl. apply Forall_forall. intros c Hin. apply in_map_iff in Hin.
    destruct Hin as (c0 & <- & _). apply strip_idempotent.
  - exists (as_sheet df). split; [exact Hr|]. split; [reflexivity|].
    simpl. now rewrite !length_map.
Qed.

(** X5. The loader is stable on its own result: a document that holds a
    frame the loader has returned loads to that very frame. *)
Theorem load_questions_stable w w' questions_df :
  load_questions w = ret questions_df ->
  path_exists w' = true ->
  read_excel w' = Gives (as_sheet questions_df) ->
  load_questions w' = ret questions_df.
Proof.
  intros H He Hr. apply load_questions_returns in H.
  destruct H as (_ & df & _ & -> & Hq & Ha).
  rewrite (load_questions_read _ _ He Hr), rename_strip_fixed.
  now rewrite Hq, Ha.
Qed.

(** X6. The loader fails in four ways only: the not-found error when the
    path does not exist; the reader's own exception when reading throws;
    [AttributeError] when a header cell of the document is not text;
    and, for a document whose header cells are all text, the schema
    error, which lists the trimmed names it found. *)
Theorem load_questions_failures w e :
  outcome (load_questions w) = Raise e ->
  (path_exists w = false /\ e = FileNotFoundError)
  \/ (path_exists w = true /\ read_excel w = Throws e)
  \/ (path_exists w = true /\
      exists sheet, read_excel w = Gives sheet
                    /\ Exists (fun l => is_text l = false) (columns sheet)
                    /\ e = AttributeError)
  \/ (path_exists w = true /\
      exists df : DataFrame,
        read_excel w = Gives (as_sheet df)
        /\ e = KeyError (map strip (columns df))
        /\ (~ In Question (map strip (columns df))
            \/ ~ In Answer (map strip (columns df)))).
Proof.
  unfold load_questions.
  destruct (path_exists w); cbn [negb].
  2: { intros [= <-]. now left. }
  destruct (read_excel w) as [sheet|e']; cbn [call].
  2: { intros [= <-]. right. now left. }
  rewrite bind_ret.
  destruct (sheet_cases sheet) as [(df & ->)|Hn].
  2: { rewrite (rename_strip_nontext _ Hn). intros [= <-].
       right. right. left. split; [reflexivity|]. now exists sheet. }
  rewrite rename_strip_text, bind_ret.
  destruct (has_column Question (rename strip df)) eqn:Hq;
    destruct (has_column Answer (rename strip df)) eqn:Ha;
    cbn [negb orb]; try discriminate;
    intros [= <-]; right; right; right; (split; [reflexivity|]);
    exists df; (split; [reflexivity|]); (split; [reflexivity|]).
  - right. now apply (has_column_not_In Answer (rename strip df)).
  - left. now apply (has_column_not_In Question (rename strip df)).
  - left. now apply (has_column_not_In Question (rename strip df)).
Qed.

(* ================================================================== *)
(** * The module body: properties *)
(* ================================================================== *)

(** X7. Run as a script with the key unset or set to the empty text, the
    file raises [ValueError] before anything is shown and before the
    sheet is looked for; with a non-empty key it does what [main] does. *)
Theorem script_needs_key {U : Unicode} getenv names w :
  (getenv = None \/ getenv = Some [] ->
   script getenv names w = ([], Raise ValueError))
  /\ (forall key, getenv = Some key -> key <> [] ->
      script getenv names w = main names w).
Proof.
  unfold script, startup. split.
  - intros [->| ->]; reflexivity.
  - intros key -> Hk. destruct key as [|c key]; [congruence|].
    cbn [truthy]. rewrite bind_ret. reflexivity.
Qed.

(* ================================================================== *)
(** * The session: further properties *)
(* ================================================================== *)

Lemma row_get_cases cols row label :
  row_get cols row label = raise (KeyError [label])
  \/ (exists x, cells_at label cols row = [x]
                /\ row_get cols row label = ret (Scalar x))
  \/ (exists xs, row_get cols row label = ret (Series xs)).
Proof.
  unfold row_get. destruct (cells_at label cols row) as [|x [|y l]].
  - now left.
  - right. left. now exists x.
  - right. right. now exists (x :: y :: l).
Qed.

Section LoopFacts.
Context {U : Unicode}.
Variable names : list string.
Variable w : World.

Lemma only_feedback_transcribe_audio recognize audio_data :
  only is_feedback (transcribe_audio names recognize audio_data).
Proof.
  unfold transcribe_audio.
  apply only_bind; [apply only_silent, trace_resolve | intros _ _].
  apply only_try_except.
  - apply only_bind; [apply only_silent, trace_call | intros ? _].
    now apply only_silent.
  - intros e h. unfold clauses_reading.
    destruct (bound names "sr"); [|intros [= <-]; constructor].
    destruct e; intros [= <-]; repeat constructor.
Qed.

(** While an answer is captured, the run only gives feedback on the page
    or the console. *)
Lemma only_feedback_capture t : only is_feedback (capture names w t).
Proof.
  unfold capture.
  apply only_bind; [now apply only_emit | intros _ _].
  apply only_try_except.
  - apply only_bind; [apply only_silent, trace_call | intros ? _].
    apply only_bind; [now apply only_emit | intros _ _].
    apply only_bind; [apply only_feedback_transcribe_audio | intros r _].
    destruct (truthy r); repeat constructor.
  - intros e h. unfold clauses_reading.
    destruct (bound names "sr"); [|intros [= <-]; constructor].
    destruct e; simpl; intros [= <-]; repeat constructor.
Qed.

(** The shape of a pass of the loop that ends normally. *)
Lemma ask_returns_shape cols k idx row responses responses' :
  outcome (ask names w cols k idx row responses) = Return responses' ->
  exists question response_text correct_answer score feedback warnings,
    cells_at Question cols row = [question]
    /\ trace (ask names w cols k idx row responses)
       = [StSubheader (idx + 1) (Scalar question); MicOpen]
         ++ feedback ++ [MicClose]
         ++ (Post response_text correct_answer :: warnings)
         ++ [StWrite (Score score); Sleep]
    /\ Forall (fun e => is_feedback e = true) feedback
    /\ Forall (fun e => is_print e = true) warnings
    /\ 0 <= score <= 10
    /\ responses' = setitem question (response_text, score) responses.
Proof.
  intros H. unfold ask in *.
  destruct (row_get_cases cols row Question)
    as [Hq|[(question & Hc & Hq)|(xs & Hq)]]; rewrite Hq in *.
  - rewrite bind_raise in H. discriminate H.
  - rewrite bind_ret, bind_emit in *. cbn [outcome snd] in H.
    unfold resolve in *.
    destruct (bound names "sr"); [|rewrite bind_raise in H; discriminate H].
    rewrite bind_ret in *.
    destruct (microphone (turn w k)) as [[]|e]; cbn [call] in *;
      [|rewrite bind_raise in H; discriminate H].
    rewrite bind_ret, bind_emit in *. cbn [outcome snd] in H.
    pose proof (only_feedback_capture (turn w k)) as Hfb. unfold only in Hfb.
    destruct (capture names w (turn w k)) as [feedback [response_text|e]];
      cbn [finally trace fst] in *; [|discriminate H].
    rewrite outcome_bind in H. cbn [outcome snd] in H.
    rewrite trace_bind. cbn [trace fst outcome snd].
    destruct (row_get_cases cols row Answer)
      as [Ha|[(answer & _ & Ha)|(ys & Ha)]]; rewrite Ha in *;
      try (rewrite bind_raise in H; discriminate H);
      rewrite bind_ret in *.
    all: match goal with
         | |- context [score_response ?r ?u ?c true] =>
             pose proof (score_response_model_trace r u c) as (warnings & Ht & Hp & _);
             pose proof (score_response_returns_in_range r u c true) as Hrange;
             destruct (score_response r u c true) as [ts [score|e']];
             cbn [trace fst outcome snd] in *; [|discriminate H]
         end.
    all: unfold bind, emit, ret, as_key in H; simpl in H;
         injection H as <-; subst ts.
    all: eexists question, response_text, _, score, feedback, warnings.
    all: split; [exact Hc|]; split;
         [|split; [exact Hfb|]; split; [exact Hp|]; split;
           [now apply Hrange | reflexivity]].
    all: unfold bind, as_key, ret, emit; simpl;
         rewrite <- !app_assoc; reflexivity.
  - exfalso. rewrite bind_ret, bind_emit in H. cbn [outcome snd] in H.
    unfold resolve in H.
    destruct (bound names "sr"); [|rewrite bind_raise in H; discriminate H].
    rewrite bind_ret in H.
    destruct (microphone (turn w k)) as [[]|e]; cbn [call] in H;
      [|rewrite bind_raise in H; discriminate H].
    rewrite bind_ret, bind_emit in H. cbn [outcome snd] in H.
    rewrite outcome_bind, outcome_finally in H.
    destruct (outcome (capture names w (turn w k))); [|discriminate H].
    rewrite outcome_bind in H.
    destruct (outcome (row_get cols row Answer)); [|discriminate H].
    rewrite outcome_bind in H.
    destruct (outcome (score_response _ _ _ _)); [|discriminate H].
    rewrite bind_ret in H. discriminate H.
Qed.
End LoopFacts.

(* ---- the response mapping ---- *)



Lemma setitem_length key v (d : responses_dict) :
  (List.length d <= List.length (setitem key v d) <= S (List.length d))%nat.
Proof.
  induction d as [|[k x] d IH]; simpl; [lia|].
  destruct (pystr_eqb k key); simpl; lia.
Qed.

Lemma assign_all_length entries : forall d,
  (List.length (assign_all entries d) <= List.length d + List.length entries)%nat.
Proof.
  induction entries as [|e entries IH]; intros d; simpl; [lia|].
  unfold assign_all in *. simpl.
  specialize (IH (setitem (fst e) (snd e) d)).
  pose proof (setitem_length (fst e) (snd e) d). lia.
Qed.

Lemma assign_all_keys entries : forall d,
  NoDup (map fst d) -> NoDup (map fst (assign_all entries d)).
Proof.
  induction entries as [|e entries IH]; intros d Hd; simpl; [exact Hd|].
  apply IH. now apply setitem_keys.
Qed.

Lemma setitem_in_range key v (d : responses_dict) :
  0 <= snd v <= 10 -> Forall in_range d -> Forall in_range (setitem key v d).
Proof.
  intros Hv Hd. induction Hd as [|[k x] d Hx Hd IH]; simpl.
  - constructor; [exact Hv | constructor].
  - destruct (pystr_eqb k key); constructor;
      solve [exact Hv | exact Hx | assumption].
Qed.

Lemma assign_all_in_range entries : forall d,
  Forall in_range entries -> Forall in_range d ->
  Forall in_range (assign_all entries d).
Proof.
  induction entries as [|e entries IH]; intros d He Hd; simpl; [exact Hd|].
  inversion He; subst. apply IH; [assumption|].
  now apply setitem_in_range.
Qed.



Lemma sum_in_range (d : responses_dict) :
  Forall in_range d ->
  0 <= sum_of (scores d) <= 10 * Z.of_nat (List.length d).
Proof.
  induction 1 as [|e d He _ IH]; simpl; [lia|].
  unfold in_range in He. fold (scores d) (sum_of (scores d)). lia.
Qed.

Lemma length_iterrows_from rs : forall idx,
  List.length (iterrows_from idx rs) = List.length rs.
Proof. induction rs as [|r rs IH]; intros idx; simpl; [|rewrite IH]; reflexivity. Qed.

Lemma feedback_is_pass_event (t : list event) :
  Forall (fun e => is_feedback e = true) t ->
  Forall (fun e => is_pass_event e = true) t.
Proof.
  apply Forall_impl. intros e He. destruct e; try discriminate He; try reflexivity.
  destruct m; try discriminate He; reflexivity.
Qed.

Lemma print_is_pass_event (t : list event) :
  Forall (fun e => is_print e = true) t ->
  Forall (fun e => is_pass_event e = true) t.
Proof.
  apply Forall_impl. intros e He. destruct e; try discriminate He. reflexivity.
Qed.

Section LoopMore.
Context {U : Unicode}.
Variable names : list string.
Variable w : World.

Lemma only_pass_score_response reply user_answer correct_answer :
  only is_pass_event (score_response reply user_answer correct_answer true).
Proof.
  destruct (score_response_model_trace reply user_answer correct_answer)
    as (warnings & Ht & Hp & _).
  unfold only. rewrite Ht. constructor; [reflexivity|].
  now apply print_is_pass_event.
Qed.

(** A pass of the loop, however it ends, produces only events of a
    pass. *)
Lemma only_pass_ask cols k idx row responses :
  only is_pass_event (ask names w cols k idx row responses).
Proof.
  unfold ask.
  apply only_bind; [apply only_silent, trace_row_get | intros ? _].
  apply only_bind; [now apply only_emit | intros _ _].
  apply only_bind; [apply only_silent, trace_resolve | intros _ _].
  apply only_bind; [apply only_silent, trace_call | intros _ _].
  apply only_bind; [now apply only_emit | intros _ _].
  apply only_bind.
  { unfold only. rewrite trace_finally. apply Forall_app. split.
    - apply feedback_is_pass_event, only_feedback_capture.
    - repeat constructor. }
  intros response_text _.
  apply only_bind; [apply only_silent, trace_row_get | intros ? _].
  apply only_bind; [apply only_pass_score_response | intros score _].
  apply only_bind; [apply only_silent, trace_row_get | intros ? _].
  apply only_bind; [apply only_silent, trace_as_key | intros key _].
  repeat constructor.
Qed.

Lemma only_pass_question_loop cols its : forall k responses,
  only is_pass_event (question_loop names w cols k its responses).
Proof.
  induction its as [|[idx row] rest IH]; intros k responses; simpl.
  - constructor.
  - apply only_bind; [apply only_pass_ask | intros ? _; apply IH].
Qed.

(** In a pass that ends normally the question is shown once, the
    microphone is opened once and released once, and one request is
    posted. *)
Lemma ask_counts cols k idx row responses responses' :
  outcome (ask names w cols k idx row responses) = Return responses' ->
  let t := trace (ask names w cols k idx row responses) in
  count is_subheader t = 1%nat /\ count is_mic_open t = 1%nat
  /\ count is_mic_close t = 1%nat /\ count is_post t = 1%nat.
Proof.
  intros H. apply ask_returns_shape in H.
  destruct H as (q & rt & ca & score & feedback & warnings
                 & _ & Ht & Hf & Hp & _ & _).
  cbv zeta. rewrite Ht.
  repeat split; rewrite !count_app, !count_cons; simpl;
    rewrite (count_none _ is_feedback feedback), (count_none _ is_print warnings);
    try reflexivity; try assumption;
    intros e He; destruct e; try discriminate He; try reflexivity;
    destruct m; try discriminate He; reflexivity.
Qed.

(** A loop that ends normally has made one assignment per row, in row
    order, each under the question text of its row and with a score
    between 0 and 10. *)
Lemma question_loop_returns cols its : forall k responses responses',
  outcome (question_loop names w cols k its responses) = Return responses' ->
  exists entries,
    Forall2 (fun it entry => cells_at Question cols (snd it) = [fst entry])
            its entries
    /\ Forall in_range entries
    /\ responses' = assign_all entries responses
    /\ (let t := trace (question_loop names w cols k its responses) in
        count is_subheader t = List.length its
        /\ count is_mic_open t = List.length its
        /\ count is_mic_close t = List.length its
        /\ count is_post t = List.length its).
Proof.
  induction its as [|[idx row] rest IH]; intros k responses responses' H;
    simpl in H.
  - injection H as <-. exists []. repeat split; constructor.
  - rewrite outcome_bind in H.
    destruct (outcome (ask names w cols k idx row responses))
      as [r1|e] eqn:Hask; [|discriminate H].
    pose proof (ask_counts _ _ _ _ _ _ Hask) as (C1 & C2 & C3 & C4).
    pose proof (ask_returns_shape _ _ _ _ _ _ _ _ Hask)
      as (q & rt & ca & score & _ & _ & Hq & _ & _ & _ & Hs & ->).
    destruct (IH _ _ _ H) as (entries & HF & HR & -> & D1 & D2 & D3 & D4).
    exists ((q, (rt, score)) :: entries).
    split; [constructor; [exact Hq | exact HF]|].
    split; [constructor; [exact Hs | exact HR]|].
    split; [reflexivity|].
    cbv zeta. simpl question_loop. rewrite trace_bind, Hask, !count_app.
    simpl List.length. cbv zeta in D1, D2, D3, D4.
    rewrite C1, C2, C3, C4, D1, D2, D3, D4. tauto.
Qed.

Lemma question_loop_no_rows cols k responses :
  question_loop names w cols k [] responses = ret responses.
Proof. reflexivity. Qed.
End LoopMore.

Lemma off_microphone_counts (t : list event) :
  Forall (fun e => off_microphone e = true) t ->
  count is_mic_open t = 0%nat /\ count is_mic_close t = 0%nat.
Proof.
  intros H. split; apply (count_none _ off_microphone); try assumption;
    intros e He; destruct e; try reflexivity; discriminate He.
Qed.

Section MainMore.
Context {U : Unicode}.
Variable names : list string.
Variable w : World.

(** A run that ends normally under a name has loaded the sheet, run the
    loop to its end and stored the mapping without a failure of the
    database; its trace is the title, the field, the loop and the
    report. *)
Lemma main_returns_inv :
  outcome (main names w) = Return tt -> text_input w <> [] ->
  exists questions_df responses,
    load_questions w = ret questions_df
    /\ outcome (question_loop names w (columns questions_df) 0
                  (iterrows questions_df) []) = Return responses
    /\ outcome (save_results (store w) (text_input w) responses) = Return tt
    /\ trace (main names w)
       = StTitle :: StTextInput
         :: trace (question_loop names w (columns questions_df) 0
                     (iterrows questions_df) [])
         ++ trace (report w (text_input w) questions_df responses).
Proof.
  intros H Hname. rewrite main_unfold in *.
  pose proof (trace_load_questions w) as Ht.
  destruct (load_questions w) as [t [df|e]]; simpl in Ht; subst t;
    cbn [outcome snd] in *; [|discriminate H].
  destruct (text_input w) as [|c name]; [congruence|]. cbn [truthy] in *.
  cbv zeta in *.
  destruct (outcome (question_loop names w (columns df) 0 (iterrows df) []))
    as [responses|e] eqn:Hloop; [|discriminate H].
  cbn [outcome snd] in H. rewrite report_outcome in H.
  exists df, responses. repeat split; [exact Hloop | exact H].
Qed.

(** A run that shows the aggregate has loaded the sheet and run the loop
    to its end. *)
Lemma main_aggregate_inv total_score maximum :
  In (StSuccess total_score maximum) (trace (main names w)) ->
  exists questions_df responses,
    load_questions w = ret questions_df
    /\ outcome (question_loop names w (columns questions_df) 0
                  (iterrows questions_df) []) = Return responses
    /\ total_score = total responses
    /\ maximum = len questions_df * 10.
Proof.
  intros Hin. rewrite main_unfold in Hin.
  pose proof (trace_load_questions w) as Ht.
  destruct (load_questions w) as [t [df|e]];
    simpl in Ht; subst t; cbn [outcome snd] in Hin.
  2: { simpl in Hin. destruct Hin as [H|[]]. discriminate H. }
  destruct (truthy (text_input w)).
  2: { simpl in Hin. destruct Hin as [H|[H|[]]]; discriminate H. }
  cbv zeta in Hin.
  assert (Hno : ~ In (StSuccess total_score maximum)
                     (trace (question_loop names w (columns df) 0
                               (iterrows df) []))).
  { intros Hl.
    pose proof (only_pass_question_loop names w (columns df) (iterrows df) 0 [])
      as Hall.
    unfold only in Hall. rewrite Forall_forall in Hall.
    specialize (Hall _ Hl). discriminate Hall. }
  destruct (outcome (question_loop names w (columns df) 0 (iterrows df) []))
    as [responses|e] eqn:Hloop; cbn [trace fst] in Hin.
  - exists df, responses. split; [reflexivity|]. split; [exact Hloop|].
    destruct Hin as [H|[H|Hin]]; try discriminate H.
    apply in_app_or in Hin. destruct Hin as [Hin|Hin]; [tauto|].
    destruct (outcome (save_results (store w) (text_input w) responses))
      as [[]|x] eqn:Hsave.
    2: { rewrite (report_fails w _ df _ _ Hsave) in Hin. cbn [trace fst] in Hin.
         pose proof (only_sql_save_results (store w) (text_input w) responses)
           as Hsql.
         unfold only in Hsql. rewrite Forall_forall in Hsql.
         specialize (Hsql _ Hin). discriminate Hsql. }
    rewrite (report_events w _ df _ Hsave) in Hin. cbn [trace fst] in Hin.
    repeat (apply in_app_or in Hin; destruct Hin as [Hin|Hin]).
    + simpl in Hin. destruct Hin as [H|[H|[]]]; discriminate H.
    + apply in_map_iff in Hin. destruct Hin as (x & H & _). discriminate H.
    + simpl in Hin.
      destruct Hin as [H|[H|[H|[H|[]]]]]; try discriminate H.
      injection H as <- <-. split; reflexivity.
    + apply in_map_iff in Hin. destruct Hin as (x & H & _). discriminate H.
  - destruct Hin as [H|[H|Hin]]; try discriminate H. tauto.
Qed.

(** X8. The aggregate shown is within its bounds: the total is at least 0
    and at most the maximum shown beside it. *)
Theorem main_total_within_bounds total_score maximum :
  In (StSuccess total_score maximum) (trace (main names w)) ->
  0 <= total_score <= maximum.
Proof.
  intros Hin. apply main_aggregate_inv in Hin.
  destruct Hin as (df & responses & _ & Hloop & -> & ->).
  apply question_loop_returns in Hloop.
  destruct Hloop as (entries & HF & HR & -> & _).
  apply Forall2_length in HF. unfold iterrows in HF.
  rewrite length_iterrows_from in HF.
  pose proof (assign_all_length entries []) as Hlen. simpl in Hlen.
  pose proof (sum_in_range (assign_all entries [])
                (assign_all_in_range entries [] HR (Forall_nil _))) as Hsum.
  rewrite total_sum. unfold len. lia.
Qed.

(** X9. In a run that ends normally under a name, the rows stored are
    exactly the entries of the response mapping, once each, in its
    order and under the candidate's name; the transcript shows the same
    entries in the same order; no question text is stored twice, and
    there are at most as many stored rows as the sheet has rows. *)
Theorem main_stores_the_mapping :
  outcome (main names w) = Return tt -> text_input w <> [] ->
  exists questions_df responses,
    load_questions w = ret questions_df
    /\ outcome (question_loop names w (columns questions_df) 0
                  (iterrows questions_df) []) = Return responses
    /\ filter is_insert (trace (main names w))
       = map (stored (text_input w)) responses
    /\ filter is_transcript_line (trace (main names w))
       = map transcript_line responses
    /\ NoDup (map fst responses)
    /\ (List.length responses <= List.length (rows questions_df))%nat.
Proof.
  intros H Hname. destruct (main_returns_inv H Hname)
    as (df & responses & Hload & Hloop & Hsave & Ht).
  exists df, responses. split; [exact Hload|]. split; [exact Hloop|].
  pose proof (only_pass_question_loop names w (columns df) (iterrows df) 0 [])
    as Hall. unfold only in Hall.
  rewrite Ht, (report_events w _ df _ Hsave). cbn [trace fst].
  split; [|split].
  - cbn [filter is_insert]. rewrite !filter_app.
    rewrite (filter_none is_insert is_pass_event _) by
      (try exact Hall; intros e He; destruct e; try reflexivity; discriminate He).
    rewrite (filter_map_all is_insert) by reflexivity.
    rewrite (filter_map_none is_insert) by (now intros [q [a s]]).
    simpl. now rewrite app_nil_r.
  - cbn [filter is_transcript_line]. rewrite !filter_app.
    rewrite (filter_none is_transcript_line is_pass_event _) by
      (try exact Hall; intros e He; destruct e; try reflexivity;
       try discriminate He; destruct m; try reflexivity; discriminate He).
    rewrite (filter_map_none is_transcript_line) by reflexivity.
    rewrite (filter_map_all is_transcript_line) by (now intros [q [a s]]).
    reflexivity.
  - apply question_loop_returns in Hloop.
    destruct Hloop as (entries & HF & _ & -> & _).
    split; [apply assign_all_keys; constructor|].
    apply Forall2_length in HF. unfold iterrows in HF.
    rewrite length_iterrows_from in HF.
    pose proof (assign_all_length entries []) as Hlen. simpl in Hlen. lia.
Qed.

(** X10. In a run that ends normally under a name, every row of the sheet is
    asked exactly once: as many questions are shown, microphone
    captures made and scoring requests posted as the sheet has rows. *)
Theorem main_one_pass_per_row :
  outcome (main names w) = Return tt -> text_input w <> [] ->
  exists questions_df,
    load_questions w = ret questions_df
    /\ count is_subheader (trace (main names w))
       = List.length (rows questions_df)
    /\ count is_mic_open (trace (main names w))
       = List.length (rows questions_df)
    /\ count is_post (trace (main names w))
       = List.length (rows questions_df).
Proof.
  intros H Hname. destruct (main_returns_inv H Hname)
    as (df & responses & Hload & Hloop & Hsave & Ht).
  exists df. split; [exact Hload|].
  apply question_loop_returns in Hloop.
  destruct Hloop as (entries & _ & _ & _ & C1 & C2 & _ & C4).
  cbv zeta in C1, C2, C4.
  assert (Hn : List.length (iterrows df) = List.length (rows df))
    by apply length_iterrows_from.
  rewrite Hn in C1, C2, C4.
  rewrite Ht, (report_events w _ df _ Hsave). cbn [trace fst].
  split; [|split];
    rewrite !count_cons, !count_app; cbn [is_subheader is_mic_open is_post];
    rewrite ?C1, ?C2, ?C4; unfold count;
    rewrite !filter_map_none by (try reflexivity; now intros [q [a s]]);
    simpl; lia.
Qed.

(** X11. A run that ends in an exception shows no aggregate.  When the
    exception arose in loading or in the loop, the database is not even
    opened.  The database is touched in a failing run only when the
    sheet was loaded, the loop ended normally and the exception is the
    database's own, raised while the mapping was being stored; with a
    database none of whose calls fails, a failing run stores nothing. *)
Theorem main_failure_effects e :
  outcome (main names w) = Raise e ->
  count is_aggregate (trace (main names w)) = 0%nat
  /\ (count is_sql (trace (main names w)) = 0%nat
      \/ exists questions_df responses,
           load_questions w = ret questions_df
           /\ outcome (question_loop names w (columns questions_df) 0
                         (iterrows questions_df) []) = Return responses
           /\ outcome (save_results (store w) (text_input w) responses)
              = Raise e)
  /\ (reliable (store w) -> count is_sql (trace (main names w)) = 0%nat).
Proof.
  intros H. rewrite main_unfold in *.
  pose proof (trace_load_questions w) as Ht.
  destruct (load_questions w) as [t [df|e']]; simpl in Ht; subst t;
    cbn [outcome snd] in *.
  2: { split; [reflexivity|]. split; [now left | reflexivity]. }
  destruct (truthy (text_input w)); [|discriminate H].
  cbv zeta in *.
  pose proof (only_pass_question_loop names w (columns df) (iterrows df) 0 [])
    as Hall. unfold only in Hall.
  assert (Hagg : count is_aggregate
                   (trace (question_loop names w (columns df) 0
                             (iterrows df) [])) = 0%nat).
  { apply (count_none _ is_pass_event); [|exact Hall].
    intros x Hx; destruct x; try reflexivity; discriminate Hx. }
  assert (Hsql : count is_sql
                   (trace (question_loop names w (columns df) 0
                             (iterrows df) [])) = 0%nat).
  { apply (count_none _ is_pass_event); [|exact Hall].
    intros x Hx; destruct x; try reflexivity; discriminate Hx. }
  destruct (outcome (question_loop names w (columns df) 0 (iterrows df) []))
    as [responses|x] eqn:Hloop; cbn [trace fst outcome snd] in *.
  - rewrite report_outcome in H.
    rewrite (report_fails w _ df _ _ H). cbn [trace fst].
    split; [|split].
    + rewrite !count_cons, count_app, Hagg. cbn [is_aggregate].
      rewrite (count_none _ is_sql); [reflexivity | |].
      * intros y Hy; destruct y; try reflexivity; discriminate Hy.
      * apply only_sql_save_results.
    + right. exists df, responses. split; [reflexivity|].
      split; [exact Hloop | exact H].
    + intros Hrel.
      rewrite (save_results_reliable _ (text_input w) responses Hrel) in H.
      discriminate H.
  - rewrite !count_cons. cbn [is_sql is_aggregate]. rewrite Hagg, Hsql.
    split; [reflexivity|]. split; [now left | reflexivity].
Qed.

End MainMore.

Lemma pass_tail_off_microphone (t : list event) :
  Forall (fun e => is_feedback e = true) t ->
  Forall (fun e => off_microphone e = true) t.
Proof.
  apply Forall_impl. intros e He. destruct e; try discriminate He; reflexivity.
Qed.

Section MicrophoneFacts.
Context {U : Unicode}.
Variable names : list string.
Variable w : World.

Lemma only_off_microphone_score_response reply user_answer correct_answer :
  only off_microphone (score_response reply user_answer correct_answer true).
Proof.
  destruct (score_response_model_trace reply user_answer correct_answer)
    as (warnings & Ht & Hp & _).
  unfold only. rewrite Ht. constructor; [reflexivity|].
  revert Hp. apply Forall_impl.
  intros e He. destruct e; try discriminate He. reflexivity.
Qed.

(** In a pass of the loop, however it ends, the microphone is released
    as often as it is opened. *)
Lemma ask_mic_balanced cols k idx row responses :
  count is_mic_open (trace (ask names w cols k idx row responses))
  = count is_mic_close (trace (ask names w cols k idx row responses)).
Proof.
  unfold ask.
  assert (Hstart : forall question,
    count is_mic_open
      (trace (emit (StSubheader (idx + 1) question) ;;;
              resolve names "sr" ;;;
              call (microphone (turn w k)) ;;;
              emit MicOpen ;;;
              response_text <- finally (capture names w (turn w k)) MicClose ;;
              correct_answer <- row_get cols row Answer ;;
              score <- score_response (post (turn w k)) response_text
                         correct_answer true ;;
              question <- row_get cols row Question ;;
              key <- as_key question ;;
              emit (StWrite (Score score)) ;;;
              emit Sleep ;;;
              ret (setitem key (response_text, score) responses)))
    = count is_mic_close
      (trace (emit (StSubheader (idx + 1) question) ;;;
              resolve names "sr" ;;;
              call (microphone (turn w k)) ;;;
              emit MicOpen ;;;
              response_text <- finally (capture names w (turn w k)) MicClose ;;
              correct_answer <- row_get cols row Answer ;;
              score <- score_response (post (turn w k)) response_text
                         correct_answer true ;;
              question <- row_get cols row Question ;;
              key <- as_key question ;;
              emit (StWrite (Score score)) ;;;
              emit Sleep ;;;
              ret (setitem key (response_text, score) responses)))).
  { intros question. rewrite bind_emit. cbn [trace fst].
    rewrite !count_cons. cbn [is_mic_open is_mic_close].
    unfold resolve. destruct (bound names "sr");
      [rewrite bind_ret | rewrite bind_raise; reflexivity].
    destruct (microphone (turn w k)) as [[]|e]; cbn [call];
      [rewrite bind_ret | rewrite bind_raise; reflexivity].
    rewrite bind_emit. cbn [trace fst].
    rewrite !count_cons. cbn [is_mic_open is_mic_close].
    rewrite trace_bind, trace_finally, outcome_finally, !count_app, !count_one.
    cbn [is_mic_open is_mic_close].
    pose proof (off_microphone_counts _
                  (pass_tail_off_microphone _
                     (only_feedback_capture names w (turn w k)))) as (C1 & C2).
    rewrite C1, C2.
    destruct (outcome (capture names w (turn w k))) as [response_text|e];
      [|reflexivity].
    match goal with
    | |- context [count is_mic_open (trace ?m)] =>
        assert (Hrest : only off_microphone m)
    end.
    { apply only_bind; [apply only_silent, trace_row_get | intros ? _].
      apply only_bind; [apply only_off_microphone_score_response | intros ? _].
      apply only_bind; [apply only_silent, trace_row_get | intros ? _].
      apply only_bind; [apply only_silent, trace_as_key | intros ? _].
      repeat constructor. }
    apply off_microphone_counts in Hrest. destruct Hrest as (R1 & R2).
    rewrite R1, R2. reflexivity. }
  rewrite trace_bind, trace_row_get. cbn [app].
  destruct (outcome (row_get cols row Question)) as [question|e];
    [apply Hstart | reflexivity].
Qed.

Lemma question_loop_mic_balanced cols its : forall k responses,
  count is_mic_open (trace (question_loop names w cols k its responses))
  = count is_mic_close (trace (question_loop names w cols k its responses)).
Proof.
  induction its as [|[idx row] rest IH]; intros k responses; simpl;
    [reflexivity|].
  rewrite trace_bind, !count_app, ask_mic_balanced.
  destruct (outcome (ask names w cols k idx row responses)); [|reflexivity].
  now rewrite IH.
Qed.

(** X12. In every run, however it ends, the microphone is released as often
    as it is opened: no exit from the loop leaves the device open. *)
Theorem main_releases_microphone :
  count is_mic_open (trace (main names w))
  = count is_mic_close (trace (main names w)).
Proof.
  rewrite main_unfold.
  destruct (outcome (load_questions w)) as [df|e]; [|reflexivity].
  destruct (truthy (text_input w)); [|reflexivity].
  cbv zeta.
  pose proof (question_loop_mic_balanced (columns df) (iterrows df) 0 [])
    as Hloop.
  destruct (outcome (question_loop names w (columns df) 0 (iterrows df) []))
    as [responses|e]; cbn [trace fst];
    rewrite !count_cons; cbn [is_mic_open is_mic_close];
    rewrite ?count_app, Hloop; [|reflexivity].
  f_equal. f_equal.
  destruct (outcome (save_results (store w) (text_input w) responses))
    as [[]|x] eqn:Hsave.
  - rewrite (report_events w _ df _ Hsave). cbn [trace fst]. unfold count.
    rewrite !filter_app.
    rewrite !filter_map_none by (try reflexivity; now intros [q [a s]]).
    reflexivity.
  - rewrite (report_fails w _ df _ _ Hsave). cbn [trace fst].
    pose proof (only_sql_save_results (store w) (text_input w) responses)
      as Hsql.
    rewrite (count_none is_mic_open is_sql
               (trace (save_results (store w) (text_input w) responses))),
            (count_none is_mic_close is_sql
               (trace (save_results (store w) (text_input w) responses)));
      try exact Hsql; try reflexivity;
      intros y Hy; destruct y; try reflexivity; discriminate Hy.
Qed.

End MicrophoneFacts.

Section LoopEntries.
Context {U : Unicode}.
Variable names : list string.
Variable w : World.




End LoopEntries.

Section AsWritten.
Context {U : Unicode}.
Variable w : World.

(** Under the names of the module as written, a pass shows at most the
    question and then raises. *)
Lemma ask_as_written cols k idx row responses :
  exists t e,
    ask module_names w cols k idx row responses = (t, Raise e)
    /\ Forall (fun x => is_subheader x = true) t.
Proof.
  unfold ask.
  destruct (row_get_cases cols row Question)
    as [Hq|[(question & _ & Hq)|(xs & Hq)]]; rewrite Hq.
  - exists [], (KeyError [Question]). split; [reflexivity | constructor].
  - rewrite bind_ret, bind_emit.
    exists [StSubheader (idx + 1) (Scalar question)], (NameError "sr").
    split; [reflexivity | repeat constructor].
  - rewrite bind_ret, bind_emit.
    exists [StSubheader (idx + 1) (Series xs)], (NameError "sr").
    split; [reflexivity | repeat constructor].
Qed.

(** With nothing to store, the report inserts no row, whatever the
    database does. *)
Lemma report_nothing_to_store candidate_name questions_df :
  let t := trace (report w candidate_name questions_df []) in
  count is_mic_open t = 0%nat /\ count is_post t = 0%nat
  /\ count is_score t = 0%nat /\ count is_insert t = 0%nat.
Proof.
  unfold report, save_results. simpl insert_all.
  destruct (connect (store w)), (execute (store w) 0), (commit (store w)),
    (close (store w)); repeat split; reflexivity.
Qed.

(** X14. With the module as written, no run ever opens the microphone, posts
    a scoring request, shows a score or stores a row, whatever the
    sheet, the name and the services do; and a run under a name over a
    sheet with at least one row ends in an exception. *)
Theorem main_as_written_never_records :
  (count is_mic_open (trace (main module_names w)) = 0%nat
   /\ count is_post (trace (main module_names w)) = 0%nat
   /\ count is_score (trace (main module_names w)) = 0%nat
   /\ count is_insert (trace (main module_names w)) = 0%nat)
  /\ (forall questions_df,
        load_questions w = ret questions_df ->
        rows questions_df <> [] -> text_input w <> [] ->
        exists e, outcome (main module_names w) = Raise e).
Proof.
  rewrite main_unfold.
  destruct (load_questions w) as [tl [df|e]] eqn:Hload; cbn [outcome snd].
  2: { split; [repeat split|]. intros df [=]. }
  destruct (text_input w) as [|c name] eqn:Hname; cbn [truthy].
  { split; [repeat split|]. intros ? _ _ Hn. congruence. }
  cbv zeta. unfold iterrows.
  destruct (rows df) as [|row rest] eqn:Hrows; simpl iterrows_from.
  - rewrite question_loop_no_rows. cbn [outcome snd ret trace fst app].
    split.
    + rewrite !count_cons. cbn [is_mic_open is_post is_score is_insert].
      exact (report_nothing_to_store (c :: name) df).
    + intros df' [= _ <-] Hr. rewrite Hrows in Hr. congruence.
  - simpl question_loop.
    destruct (ask_as_written (columns df) 0 0 row [])
      as (t & e & Hask & Ht).
    rewrite Hask, bind_raise'. cbn [outcome snd trace fst].
    split.
    + rewrite !count_cons. cbn [is_mic_open is_post is_score is_insert].
      repeat split; apply (count_none _ is_subheader); try exact Ht;
        intros x Hx; destruct x; try discriminate Hx; reflexivity.
    + intros _ _ _ _. now exists e.
Qed.

End AsWritten.

(* ================================================================== *)
(** * Capture and transcription once [sr] is bound *)
(* ================================================================== *)

Section BoundFacts.
Context {U : Unicode}.
Variable names : list string.
Variable w : World.
Hypothesis sr_bound : bound names "sr" = true.

(** X15. Once the name [sr] is bound, [transcribe_audio] returns the
    recognised text trimmed; swallows exactly the two conditions of
    lines 39 and 42, giving the empty text and one console warning; and
    lets every other exception of the service through unchanged. *)
Theorem transcribe_audio_contract recognize audio_data :
  (forall response_text, recognize audio_data = Gives response_text ->
     transcribe_audio names recognize audio_data
     = ([], Return (strip response_text)))
  /\ (recognize audio_data = Throws UnknownValueError
      \/ recognize audio_data = Throws RequestError ->
      outcome (transcribe_audio names recognize audio_data) = Return []
      /\ count is_print (trace (transcribe_audio names recognize audio_data))
         = 1%nat)
  /\ (forall e, recognize audio_data = Throws e ->
        e <> UnknownValueError -> e <> RequestError ->
        transcribe_audio names recognize audio_data = ([], Raise e)).
Proof.
  unfold transcribe_audio, resolve, clauses_reading.
  rewrite sr_bound, bind_ret. split; [|split].
  - intros response_text ->. reflexivity.
  - intros [-> | ->]; split; reflexivity.
  - intros e -> H1 H2. destruct e; try reflexivity; congruence.
Qed.

(** X16. Once [sr] is bound, nothing that goes wrong while listening or
    transcribing leaves the loop body, short of an interrupt: the
    capture returns a text, which is trimmed, and an empty text comes
    with exactly one error shown on the page, a non-empty one with
    none. *)
Theorem capture_never_fails t :
  listen t <> Throws KeyboardInterrupt ->
  (forall audio_data,
     recognize_google w audio_data <> Throws KeyboardInterrupt) ->
  exists response_text,
    outcome (capture names w t) = Return response_text
    /\ strip response_text = response_text
    /\ count is_error (trace (capture names w t))
       = if truthy response_text then 0%nat else 1%nat.
Proof.
  intros Hl Hr. unfold capture, transcribe_audio, resolve, clauses_reading.
  rewrite sr_bound, bind_emit. cbn [outcome snd trace fst].
  destruct (listen t) as [audio_data|e]; cbn [call].
  - rewrite !bind_ret, bind_emit.
    specialize (Hr audio_data).
    destruct (recognize_google w audio_data) as [text|e]; cbn [call].
    + rewrite !bind_ret.
      destruct (strip text) as [|c r] eqn:Hs; cbn [truthy].
      * exists []. repeat split.
      * exists (c :: r). split; [reflexivity|].
        split; [rewrite <- Hs; apply strip_idempotent | reflexivity].
    + destruct e; try (exists []; repeat split; fail). congruence.
  - destruct e; try (exists []; repeat split; fail). congruence.
Qed.

(** X17. Once [sr] is bound: when nothing is heard before the timeout, the
    question is still sent for scoring, with the empty text as the
    candidate's answer, and what is recorded and shown is the score the
    endpoint returns (clamped), not a fixed 0. *)
Theorem ask_scores_silence cols k idx row responses
        question correct_answer response content n :
  cells_at Question cols row = [question] ->
  cells_at Answer cols row = [correct_answer] ->
  microphone (turn w k) = Gives tt ->
  listen (turn w k) = Throws WaitTimeoutError ->
  post (turn w k) = Gives response ->
  status_code response = 200 ->
  has_completion response content ->
  PyInt.int (strip content) = Some n ->
  ask names w cols k idx row responses
  = ([StSubheader (idx + 1) (Scalar question); MicOpen;
      StWrite Listening; StError NoResponse; MicClose;
      Post [] (Scalar correct_answer);
      StWrite (Score (clamp n)); Sleep],
     Return (setitem question ([], clamp n) responses)).
Proof.
  intros Hq Ha Hmic Hlisten Hpost Hstatus Hc Hn.
  assert (Hcap : capture names w (turn w k)
                 = ([StWrite Listening; StError NoResponse], Return [])).
  { unfold capture, clauses_reading. rewrite Hlisten, sr_bound. reflexivity. }
  assert (Hscore : score_response (post (turn w k)) [] (Scalar correct_answer) true
                   = ([Post [] (Scalar correct_answer)], Return (clamp n))).
  { rewrite Hpost, (score_response_model_unfold _ _ _ _ Hc), Hn.
    apply Z.eqb_eq in Hstatus. now rewrite Hstatus. }
  unfold ask, row_get, resolve. rewrite Hq, Ha, sr_bound, Hmic, Hcap.
  cbn -[score_response clamp setitem Z.add].
  rewrite Hscore. reflexivity.
Qed.

End BoundFacts.

(* ================================================================== *)
(** * Further properties on whole runs *)
(* ================================================================== *)

(** The sheet with a repeated question: scores 10, 0 and 7 are shown,
    two rows are stored, and the total is 7 out of 30. *)
Example main_repeated_question :
  main (U := ascii_tables) names_with_alias repeating_world
  = ([StTitle; StTextInput;
      StSubheader 1 (Scalar (lit "Capital of France?"));
      MicOpen; StWrite Listening; StWrite Processing;
      StWrite (Transcribed (lit "Paris")); MicClose;
      Post (lit "Paris") (Scalar (lit "Paris"));
      StWrite (Score 10); Sleep;
      StSubheader 2 (Scalar (lit "What is 2+2?"));
      MicOpen; StWrite Listening; StWrite Processing;
      StWrite (Transcribed (lit "Paris")); MicClose;
      Post (lit "Paris") (Scalar (lit "4"));
      StWrite (Score 0); Sleep;
      StSubheader 3 (Scalar (lit "Capital of France?"));
      MicOpen; StWrite Listening; StWrite Processing;
      StWrite (Transcribed (lit "Paris")); MicClose;
      Post (lit "Paris") (Scalar (lit "Paris"));
      StWrite (Score 7); Sleep;
      SqlConnect; SqlCreateTable;
      SqlInsert (lit "Ada") (lit "Capital of France?") (lit "Paris") 7;
      SqlInsert (lit "Ada") (lit "What is 2+2?") (lit "Paris") 0;
      SqlCommit; SqlClose;
      StSuccess 7 30; StWrite TranscriptHeader;
      StWrite (TranscriptLine (lit "Capital of France?") (lit "Paris") 7);
      StWrite (TranscriptLine (lit "What is 2+2?") (lit "Paris") 0)],
     Return tt).
Proof. reflexivity. Qed.

Lemma score_response_plain_equivalence_witness :
  score_response (U := ascii_tables) (Throws RequestError)
                 (lit "PARIS ") (Scalar (lit "paris")) false = ret 10.
Proof.
  apply (proj1 (proj2 (score_response_plain_equivalence (U := ascii_tables)
                         (Throws RequestError)
                         (lit "PARIS ") (lit " Paris") (lit "paris"))));
    reflexivity.
Defined.

Lemma load_questions_postcondition_witness :
  In Question (columns (rename strip sheet_padded))
  /\ In Answer (columns (rename strip sheet_padded))
  /\ Forall (fun c => strip c = c) (columns (rename strip sheet_padded))
  /\ exists df,
       read_excel (quiet_world (Some sheet_padded) []) = Gives df
       /\ rows (rename strip sheet_padded) = rows df
       /\ List.length (columns (rename strip sheet_padded))
          = List.length (columns df).
Proof.
  apply (load_questions_postcondition (quiet_world (Some sheet_padded) [])).
  reflexivity.
Defined.

Lemma load_questions_stable_witness :
  load_questions (quiet_world (Some (rename strip sheet_padded)) (lit "Ada"))
  = ret (rename strip sheet_padded).
Proof.
  apply (load_questions_stable (quiet_world (Some sheet_padded) []));
    reflexivity.
Defined.

Lemma load_questions_failures_witness :
  ((path_exists (quiet_world (Some sheet_other_case) []) = false
    /\ KeyError [lit "question"; lit "ANSWER"] = FileNotFoundError)
   \/ (path_exists (quiet_world (Some sheet_other_case) []) = true
       /\ read_excel (quiet_world (Some sheet_other_case) [])
          = Throws (KeyError [lit "question"; lit "ANSWER"]))
   \/ (path_exists (quiet_world (Some sheet_other_case) []) = true /\
       exists sheet,
         read_excel (quiet_world (Some sheet_other_case) []) = Gives sheet
         /\ Exists (fun l => is_text l = false) (columns sheet)
         /\ KeyError [lit "question"; lit "ANSWER"] = AttributeError)
   \/ (path_exists (quiet_world (Some sheet_other_case) []) = true /\
       exists df : DataFrame,
         read_excel (quiet_world (Some sheet_other_case) [])
         = Gives (as_sheet df)
         /\ KeyError [lit "question"; lit "ANSWER"]
            = KeyError (map strip (columns df))
         /\ (~ In Question (map strip (columns df))
             \/ ~ In Answer (map strip (columns df)))))
  /\
  ((path_exists (reading_world sheet_numeric_header []) = false
    /\ AttributeError = FileNotFoundError)
   \/ (path_exists (reading_world sheet_numeric_header []) = true
       /\ read_excel (reading_world sheet_numeric_header [])
          = Throws AttributeError)
   \/ (path_exists (reading_world sheet_numeric_header []) = true /\
       exists sheet,
         read_excel (reading_world sheet_numeric_header []) = Gives sheet
         /\ Exists (fun l => is_text l = false) (columns sheet)
         /\ AttributeError = AttributeError)
   \/ (path_exists (reading_world sheet_numeric_header []) = true /\
       exists df : DataFrame,
         read_excel (reading_world sheet_numeric_header [])
         = Gives (as_sheet df)
         /\ AttributeError = KeyError (map strip (columns df))
         /\ (~ In Question (map strip (columns df))
             \/ ~ In Answer (map strip (columns df))))).
Proof.
  split.
  - apply (load_questions_failures (quiet_world (Some sheet_other_case) [])).
    reflexivity.
  - apply (load_questions_failures (reading_world sheet_numeric_header [])).
    reflexivity.
Defined.

Lemma script_needs_key_witness :
  script (U := ascii_tables) (Some []) names_with_alias speaking_world
  = ([], Raise ValueError)
  /\ script (U := ascii_tables) (Some (lit "sk-or-1"))
            names_with_alias speaking_world
     = main (U := ascii_tables) names_with_alias speaking_world.
Proof.
  split.
  - apply (proj1 (script_needs_key (U := ascii_tables) (Some [])
                    names_with_alias speaking_world)).
    right. reflexivity.
  - apply (proj2 (script_needs_key (U := ascii_tables) (Some (lit "sk-or-1"))
                    names_with_alias speaking_world) (lit "sk-or-1"));
      [reflexivity | discriminate].
Defined.

Lemma main_total_within_bounds_witness : 0 <= 7 <= 30.
Proof.
  apply (main_total_within_bounds (U := ascii_tables)
           names_with_alias repeating_world).
  vm_compute. tauto.
Defined.

Lemma main_stores_the_mapping_witness :
  exists questions_df responses,
    load_questions repeating_world = ret questions_df
    /\ outcome (question_loop (U := ascii_tables) names_with_alias
                  repeating_world (columns questions_df) 0
                  (iterrows questions_df) []) = Return responses
    /\ filter is_insert
         (trace (main (U := ascii_tables) names_with_alias repeating_world))
       = map (stored (text_input repeating_world)) responses
    /\ filter is_transcript_line
         (trace (main (U := ascii_tables) names_with_alias repeating_world))
       = map transcript_line responses
    /\ NoDup (map fst responses)
    /\ (List.length responses <= List.length (rows questions_df))%nat.
Proof.
  apply (main_stores_the_mapping (U := ascii_tables)
           names_with_alias repeating_world).
  - reflexivity.
  - simpl. discriminate.
Defined.

Lemma main_one_pass_per_row_witness :
  exists questions_df,
    load_questions repeating_world = ret questions_df
    /\ count is_subheader
         (trace (main (U := ascii_tables) names_with_alias repeating_world))
       = List.length (rows questions_df)
    /\ count is_mic_open
         (trace (main (U := ascii_tables) names_with_alias repeating_world))
       = List.length (rows questions_df)
    /\ count is_post
         (trace (main (U := ascii_tables) names_with_alias repeating_world))
       = List.length (rows questions_df).
Proof.
  apply (main_one_pass_per_row (U := ascii_tables)
           names_with_alias repeating_world).
  - reflexivity.
  - simpl. discriminate.
Defined.

Lemma main_failure_effects_witness :
  (count is_aggregate
     (trace (main (U := ascii_tables) module_names speaking_world)) = 0%nat
   /\ (count is_sql
         (trace (main (U := ascii_tables) module_names speaking_world))
       = 0%nat
       \/ exists questions_df responses,
            load_questions speaking_world = ret questions_df
            /\ outcome (question_loop (U := ascii_tables) module_names
                          speaking_world (columns questions_df) 0
                          (iterrows questions_df) []) = Return responses
            /\ outcome (save_results (store speaking_world)
                          (text_input speaking_world) responses)
               = Raise (NameError "sr"))
   /\ (reliable (store speaking_world) ->
       count is_sql
         (trace (main (U := ascii_tables) module_names speaking_world))
       = 0%nat))
  /\
  (count is_aggregate
     (trace (main (U := ascii_tables) names_with_alias locked_world)) = 0%nat
   /\ (count is_sql
         (trace (main (U := ascii_tables) names_with_alias locked_world))
       = 0%nat
       \/ exists questions_df responses,
            load_questions locked_world = ret questions_df
            /\ outcome (question_loop (U := ascii_tables) names_with_alias
                          locked_world (columns questions_df) 0
                          (iterrows questions_df) []) = Return responses
            /\ outcome (save_results (store locked_world)
                          (text_input locked_world) responses)
               = Raise OperationalError)
   /\ (reliable (store locked_world) ->
       count is_sql
         (trace (main (U := ascii_tables) names_with_alias locked_world))
       = 0%nat)).
Proof.
  split.
  - apply (main_failure_effects (U := ascii_tables)
             module_names speaking_world (NameError "sr")).
    reflexivity.
  - apply (main_failure_effects (U := ascii_tables)
             names_with_alias locked_world OperationalError).
    reflexivity.
Defined.


Lemma main_as_written_never_records_witness :
  exists e,
    outcome (main (U := ascii_tables) module_names speaking_world) = Raise e.
Proof.
  apply (proj2 (main_as_written_never_records (U := ascii_tables)
                  speaking_world)
           (rename strip sheet_padded)).
  - reflexivity.
  - simpl. discriminate.
  - simpl. discriminate.
Defined.

Lemma transcribe_audio_contract_witness :
  (outcome (transcribe_audio names_with_alias
              (fun _ => Throws UnknownValueError) [1]) = Return []
   /\ count is_print
        (trace (transcribe_audio names_with_alias
                  (fun _ => Throws UnknownValueError) [1])) = 1%nat)
  /\ transcribe_audio names_with_alias
       (fun _ => Throws (OtherException "ConnectionResetError")) [1]
     = ([], Raise (OtherException "ConnectionResetError")).
Proof.
  split.
  - apply (proj1 (proj2 (transcribe_audio_contract names_with_alias eq_refl
                           (fun _ => Throws UnknownValueError) [1]))).
    left. reflexivity.
  - apply (proj2 (proj2 (transcribe_audio_contract names_with_alias eq_refl
                           (fun _ => Throws (OtherException "ConnectionResetError"))
                           [1])));
      [reflexivity | discriminate | discriminate].
Defined.

Lemma capture_never_fails_witness :
  exists response_text,
    outcome (capture names_with_alias lenient_world (turn lenient_world 0))
    = Return response_text
    /\ strip response_text = response_text
    /\ count is_error
         (trace (capture names_with_alias lenient_world (turn lenient_world 0)))
       = if truthy response_text then 0%nat else 1%nat.
Proof.
  apply (capture_never_fails names_with_alias lenient_world eq_refl).
  - simpl. discriminate.
  - intros audio_data. simpl. discriminate.
Defined.

Lemma ask_scores_silence_witness :
  ask (U := ascii_tables) names_with_alias lenient_world
      [Question; Answer] 0 0 [lit "What is 2+2?"; lit "4"] []
  = ([StSubheader (0 + 1) (Scalar (lit "What is 2+2?")); MicOpen;
      StWrite Listening; StError NoResponse; MicClose;
      Post [] (Scalar (lit "4"));
      StWrite (Score (clamp 3)); Sleep],
     Return (setitem (lit "What is 2+2?") ([], clamp 3) [])).
Proof.
  apply (ask_scores_silence (U := ascii_tables) names_with_alias lenient_world
           eq_refl [Question; Answer] 0 0 [lit "What is 2+2?"; lit "4"] []
           (lit "What is 2+2?") (lit "4") (reply_of 200 (lit "3")) (lit "3") 3);
    try reflexivity.
  apply reply_of_has_completion.
Defined.

Lemma question_loop_after_transport_failure_witness :
  outcome (question_loop (U := ascii_tables) names_with_alias outage_world
             [Question; Answer] 0
             [(0, [lit "What is 2+2?"; lit "4"]);
              (1, [lit "Capital of France?"; lit "Paris"])] [])
  = outcome (question_loop (U := ascii_tables) names_with_alias outage_world
               [Question; Answer] 1
               [(1, [lit "Capital of France?"; lit "Paris"])]
               (setitem (lit "What is 2+2?") ([], 0) [])).
Proof.
  apply (question_loop_after_transport_failure (U := ascii_tables)
           names_with_alias outage_world eq_refl
           [Question; Answer] 0%nat 0 [lit "What is 2+2?"; lit "4"]
           [(1, [lit "Capital of France?"; lit "Paris"])] []
           (lit "What is 2+2?") (lit "4") []
           {| status_code := 503; text := lit "Service Unavailable";
              json := None |});
    try reflexivity.
  simpl. discriminate.
Defined.
